(** * python-ui: the parameter model and its two front ends

    A shallow embedding of [parameter.py], [genui.py] and the state
    machines of [gengui.py] ([confirm], [set_progress], [log]).

    Python objects that the code mutates (the class attribute
    [Parameter.used_flags], the fields of a [Parameter], the attributes of
    the [GenericGUI] instance, the Tk entries) are modelled by explicit
    state passing.  A Python exception is a value [Raise e]. *)

From Stdlib Require Import ZArith Bool Ascii String List Lia.
From stdpp Require Import base option list strings gmap.

Set Warnings "-register-all,-clear-no-such-hyp".

Local Open Scope string_scope.
Local Open Scope Z_scope.

(** ** Python values *)

(** The run-time values that parameters, defaults and validators handle. *)
Inductive pyval : Type :=
| PNone
| PBool (b : bool)
| PInt (z : Z)
| PStr (s : string)
| PList (l : list pyval).

(** Python's [==] on these values: [bool] is a subclass of [int], so
    [True == 1]; values of unrelated types are never equal. *)
Fixpoint py_eq (a b : pyval) : bool :=
  match a, b with
  | PNone, PNone => true
  | PBool x, PBool y => Bool.eqb x y
  | PBool x, PInt z => Z.eqb (Z.b2z x) z
  | PInt z, PBool x => Z.eqb z (Z.b2z x)
  | PInt x, PInt y => Z.eqb x y
  | PStr s, PStr t => String.eqb s t
  | PList l, PList m =>
      (fix go (l m : list pyval) : bool :=
         match l, m with
         | [], [] => true
         | x :: l', y :: m' => py_eq x y && go l' m'
         | _, _ => false
         end) l m
  | _, _ => false
  end.

(** [x in xs] for a list literal. *)
Definition py_in (x : pyval) (xs : list pyval) : bool :=
  existsb (py_eq x) xs.

(** Truth value of an object, as [not x] / [x or y] test it. *)
Definition truthy (v : pyval) : bool :=
  match v with
  | PNone => false
  | PBool b => b
  | PInt z => negb (Z.eqb z 0)
  | PStr s => negb (String.eqb s "")
  | PList l => match l with [] => false | _ => true end
  end.

(** [type(v).__name__] *)
Definition type_name (v : pyval) : string :=
  match v with
  | PNone => "NoneType"
  | PBool _ => "bool"
  | PInt _ => "int"
  | PStr _ => "str"
  | PList _ => "list"
  end.

(** ** Exceptions *)

(** The text of an exception.  [NotOfType v t] stands for the formatted
    text ['%s is not of type %s' % (v, t)], kept unrendered. *)
Inductive message : Type :=
| Text (s : string)
| NotOfType (v : pyval) (t : string).

Inductive exn : Type :=
| ValueError (m : message)
| ArgumentTypeError (m : message)
| OtherException (cls : string) (m : message).

(** [str(e)] *)
Definition exn_message (e : exn) : message :=
  match e with
  | ValueError m => m
  | ArgumentTypeError m => m
  | OtherException _ m => m
  end.

Inductive result (A : Type) : Type :=
| Ok (a : A)
| Raise (e : exn).
Arguments Ok {A} a.
Arguments Raise {A} e.

Definition is_ok {A} (r : result A) : bool :=
  match r with Ok _ => true | Raise _ => false end.

(** ** Callables used as validators *)

(** A validator is a function or a bare type object.  [c_type] is the
    type's [__name__] when the callable is a type, [c_params] the number of
    parameters that [inspect.signature] reports, [c_call] what calling it
    with one argument does. *)
Record callable : Type := Callable {
  c_type : option string;
  c_params : nat;
  c_call : pyval -> result pyval
}.

(** [type(f).__name__ == 'type'] *)
Definition is_type_object (f : callable) : bool :=
  match c_type f with Some _ => true | None => false end.

(** [lambda value: value], the default of [verify]. *)
Definition identity_verify : callable :=
  Callable None 1 (fun value => Ok value).

(** [example_verify] of parameter.py; the text is ["%s is None" % value]
    with [value = None]. *)
Definition example_verify : callable :=
  Callable None 1 (fun value =>
    match value with
    | PNone => Raise (ValueError (Text "None is None"))
    | _ => Ok value
    end).

(** ** parameter.py *)

(** An instance of [Parameter]. *)
Record parameter : Type := MkParameter {
  p_name : string;
  p_short : option string;
  p_long : option string;
  p_meta : option string;
  p_nargs : pyval;
  p_default : pyval;
  p_value : pyval;
  p_widget : string;
  p_help : option string;
  p_verify : callable
}.

(** The arguments of [Parameter.__init__]. *)
Record init_args : Type := InitArgs {
  a_name : string;
  a_short : option string;
  a_long : option string;
  a_meta : option string;
  a_nargs : pyval;
  a_default : pyval;
  a_verify : callable;
  a_help : option string;
  a_widget : string
}.

(** The keyword defaults of the signature:
    [short=None, long=None, meta=None, nargs=1, default=None,
     verify=lambda value: value, help=None, widget='text']. *)
Definition args_of_name (name : string) : init_args :=
  InitArgs name None None None (PInt 1) PNone identity_verify None "text".

(** Code that runs against the class attribute [Parameter.used_flags] and
    may raise: the set is threaded through, and kept as it is at the point
    of a [raise]. *)
Definition ctor (A : Type) : Type := gset string -> gset string * result A.

Definition ctor_ret {A} (a : A) : ctor A := fun flags => (flags, Ok a).

Definition ctor_raise {A} (e : exn) : ctor A := fun flags => (flags, Raise e).

Definition ctor_bind {A B} (m : ctor A) (k : A -> ctor B) : ctor B :=
  fun flags =>
    match m flags with
    | (flags', Ok a) => k a flags'
    | (flags', Raise e) => (flags', Raise e)
    end.

Notation "'do' x <- m ; k" := (ctor_bind m (fun x => k))
  (at level 10, x name, m at level 100, k at level 200).

(** [self.meta = meta or name if long != name else None]: the conditional
    expression binds weaker than [or]. *)
Definition init_meta (meta : option string) (name : string) (long : option string)
  : option string :=
  if negb (bool_decide (long = Some name)) then
    match meta with
    | Some m => if truthy (PStr m) then Some m else Some name
    | None => Some name
    end
  else None.

(** [if flag is not None: if flag in used_flags: raise ... else: add] *)
Definition register_flag (flag : option string) (text : string) : ctor unit :=
  fun flags =>
    match flag with
    | None => (flags, Ok tt)
    | Some f =>
        if bool_decide (f ∈ flags)
        then (flags, Raise (ValueError (Text text)))
        else ({[ f ]} ∪ flags, Ok tt)
    end.

Definition short_flag_text (short name : string) : string :=
  "Short flag '" +:+ short +:+ "' for parameter " +:+ name +:+ " is already used".

Definition long_flag_text (long name : string) : string :=
  "Long flag '" +:+ long +:+ "' for parameter " +:+ name +:+ " is already used".

Definition verify_text (name : string) : string :=
  "Function for verification of '" +:+ name +:+ "' needs to have exactly 1 parameter.".

(** [Parameter.__init__] *)
Definition Parameter_init (a : init_args) : ctor parameter :=
  let self_short := (fun s => "-" +:+ s) <$> a_short a in
  do _ <- register_flag self_short
            (short_flag_text (default "" (a_short a)) (a_name a));
  let self_long := (fun s => "--" +:+ s) <$> a_long a in
  do _ <- register_flag self_long
            (long_flag_text (default "" (a_long a)) (a_name a));
  let self_meta := init_meta (a_meta a) (a_name a) (a_long a) in
  let self_widget :=
    if negb (py_eq (a_nargs a) (PInt 0)) then a_widget a else "box" in
  if Nat.eqb (c_params (a_verify a)) 1 then
    ctor_ret (MkParameter (a_name a) self_short self_long self_meta
                (a_nargs a) (a_default a) (a_default a) self_widget
                (a_help a) (a_verify a))
  else ctor_raise (ValueError (Text (verify_text (a_name a)))).

(** The flags that a constructed parameter owns. *)
Definition flags_of (p : parameter) : gset string :=
  match p_short p with Some f => {[ f ]} | None => ∅ end ∪
  match p_long p with Some f => {[ f ]} | None => ∅ end.

(** Constructing a sequence of parameters, as a script does at start-up;
    the script stops at the first exception. *)
Fixpoint construct_all (l : list init_args) : ctor (list parameter) :=
  match l with
  | [] => ctor_ret []
  | a :: l' =>
      do p <- Parameter_init a;
      do ps <- construct_all l';
      ctor_ret (p :: ps)
  end.

(** ** Strings: [str.split(',')] and [str.strip()] *)

(** [c.isspace()] for a character [c] below U+0100; a [string] stands for
    a [str] whose characters are all in that range. *)
Definition isspace (c : ascii) : bool :=
  let n := N_of_ascii c in
  ((9 <=? n) && (n <=? 13) || (28 <=? n) && (n <=? 32)
   || (n =? 133) || (n =? 160))%N.

Fixpoint lstrip (s : string) : string :=
  match s with
  | String c s' => if isspace c then lstrip s' else s
  | EmptyString => EmptyString
  end.

Fixpoint rstrip (s : string) : string :=
  match s with
  | String c s' =>
      match rstrip s' with
      | EmptyString => if isspace c then EmptyString else String c EmptyString
      | r => String c r
      end
  | EmptyString => EmptyString
  end.

(** [s.strip()] *)
Definition strip (s : string) : string := rstrip (lstrip s).

(** [s.split(',')]: never empty, [''.split(',') == ['']]. *)
Fixpoint split_comma (s : string) : list string :=
  match s with
  | EmptyString => [EmptyString]
  | String c s' =>
      if Ascii.eqb c ","%char then EmptyString :: split_comma s'
      else match split_comma s' with
           | piece :: rest => String c piece :: rest
           | [] => [String c EmptyString]
           end
  end.

(** [list.remove(x)]: drops the first occurrence; [ValueError] when there
    is none. *)
Fixpoint list_remove (x : string) (l : list string) : option (list string) :=
  match l with
  | [] => None
  | y :: l' =>
      if String.eqb y x then Some l'
      else option_map (cons y) (list_remove x l')
  end.

(** [x in l] for a list of strings. *)
Definition str_in (x : string) (l : list string) : bool :=
  existsb (String.eqb x) l.

(** ** argparse *)

(** The part of the standard library's [argparse] that [load_cli] drives:
    [ArgumentParser.add_argument] for the [store], [store_true] and
    [store_false] actions, and what such an action leaves in the parsed
    namespace. *)
Module Argparse.

(** The keyword arguments that [load_cli] collects in [specifiers];
    [None] is a key that is absent. *)
Record kwargs : Type := Kwargs {
  kw_dest : option string;
  kw_action : option string;
  kw_nargs : option pyval;
  kw_default : option pyval;
  kw_metavar : option string;
  kw_help : option string;
  kw_type : option callable
}.

Inductive action_class : Type := StoreAction | StoreTrueAction | StoreFalseAction.

Record action : Type := Action {
  option_strings : list string;
  dest : string;
  cls : action_class;
  nargs : option pyval;
  const : pyval;
  default : pyval;
  type : option callable;
  required : bool;
  help : option string;
  metavar : option string
}.

(** A parser is the list of its actions, latest first; a fresh
    [ArgumentParser()] owns the [-h/--help] option strings. *)
Record parser : Type := Parser {
  reserved : list string;
  actions : list action
}.

Definition ArgumentParser : parser := Parser ["-h"; "--help"] [].

Definition taken (p : parser) : list string :=
  reserved p ++ flat_map option_strings (actions p).

Definition starts_with_dash (s : string) : bool :=
  match s with String c _ => Ascii.eqb c "-"%char | EmptyString => false end.

Definition type_error (s : string) : exn := OtherException "TypeError" (Text s).
Definition argument_error (s : string) : exn := OtherException "ArgumentError" (Text s).

(** [_registry_get('action', name)] for the names [load_cli] uses. *)
Definition pop_action_class (k : kwargs) : result action_class :=
  match kw_action k with
  | None => Ok StoreAction
  | Some name =>
      if String.eqb name "store_true" then Ok StoreTrueAction
      else if String.eqb name "store_false" then Ok StoreFalseAction
      else if String.eqb name "store" then Ok StoreAction
      else Raise (ValueError (Text "unknown action"))
  end.

(** Calling the action class on the keywords.  [_StoreTrueAction.__init__] and
    [_StoreFalseAction.__init__] take [option_strings, dest, default,
    required, help] and nothing else, so any other key is a [TypeError];
    they fix [const] and give [default] its own default. *)
Definition make_action (c : action_class) (strings : list string) (d : string)
    (req : bool) (k : kwargs) : result action :=
  match c with
  | StoreAction =>
      match kw_nargs k with
      | Some n =>
          if py_eq n (PInt 0)
          then Raise (ValueError (Text "nargs for store actions must be != 0"))
          else Ok (Action strings d c (kw_nargs k) PNone
                     (option.default PNone (kw_default k)) (kw_type k) req
                     (kw_help k) (kw_metavar k))
      | None =>
          Ok (Action strings d c None PNone (option.default PNone (kw_default k))
                (kw_type k) req (kw_help k) (kw_metavar k))
      end
  | StoreTrueAction | StoreFalseAction =>
      match kw_nargs k, kw_metavar k, kw_type k with
      | None, None, None =>
          let flag := match c with StoreTrueAction => true | _ => false end in
          Ok (Action strings d c (Some (PInt 0)) (PBool flag)
                (option.default (PBool (negb flag)) (kw_default k)) None req
                (kw_help k) None)
      | Some _, _, _ =>
          Raise (type_error "__init__() got an unexpected keyword argument 'nargs'")
      | None, Some _, _ =>
          Raise (type_error "__init__() got an unexpected keyword argument 'metavar'")
      | None, None, Some _ =>
          Raise (type_error "__init__() got an unexpected keyword argument 'type'")
      end
  end.

Fixpoint lstrip_dash (s : string) : string :=
  match s with
  | String c s' => if Ascii.eqb c "-"%char then lstrip_dash s' else s
  | EmptyString => EmptyString
  end.

Fixpoint dash_to_underscore (s : string) : string :=
  match s with
  | String c s' =>
      String (if Ascii.eqb c "-"%char then "_"%char else c) (dash_to_underscore s')
  | EmptyString => EmptyString
  end.

Definition is_long_option (s : string) : bool :=
  match s with
  | String _ (String c _) => Ascii.eqb c "-"%char
  | _ => false
  end.

(** The destination of an option without [dest=]: the first long option
    string, else the first option string, without its dashes. *)
Definition infer_dest (args : list string) : string :=
  let pick :=
    match filter (fun s => Is_true (is_long_option s)) args with
    | l :: _ => l
    | [] => match args with a :: _ => a | [] => EmptyString end
    end in
  dash_to_underscore (lstrip_dash pick).

(** [_check_conflict] with the default handler: an option string that the
    parser already knows is an error. *)
Definition add_action (p : parser) (a : action) : result parser :=
  if existsb (fun s => str_in s (taken p)) (option_strings a)
  then Raise (argument_error "conflicting option string")
  else Ok (Parser (reserved p) (a :: actions p)).

(** [parser.add_argument], called with the identifiers [args] and the
    keywords [k]. *)
Definition add_argument (p : parser) (args : list string) (k : kwargs)
  : result parser :=
  match args with
  | [] => Raise (type_error "missing dest")
  | [EmptyString] => Raise (OtherException "IndexError" (Text "string index out of range"))
  | first :: others =>
      let positional :=
        match others with [] => negb (starts_with_dash first) | _ => false end in
      if positional then
        match kw_dest k with
        | Some _ => Raise (ValueError (Text "dest supplied twice for positional argument"))
        | None =>
            let req :=
              match kw_nargs k with
              | Some n =>
                  if py_eq n (PStr "?") then false
                  else if py_eq n (PStr "*")
                       then match kw_default k with None => true | Some _ => false end
                       else true
              | None => true
              end in
            match pop_action_class k with
            | Raise e => Raise e
            | Ok c =>
                match make_action c [] first req k with
                | Raise e => Raise e
                | Ok a => add_action p a
                end
            end
        end
      else if negb (forallb starts_with_dash args)
      then Raise (ValueError (Text "invalid option string"))
      else
        let d := option.default (infer_dest args) (kw_dest k) in
        if String.eqb d EmptyString
        then Raise (ValueError (Text "dest= is required for options like this"))
        else
          match pop_action_class k with
          | Raise e => Raise e
          | Ok c =>
              match make_action c args d false k with
              | Raise e => Raise e
              | Ok a => add_action p a
              end
          end
  end.

(** What [parse_args] leaves under [dest a] for a [store_true] or
    [store_false] action that is the only one with that [dest]: the
    namespace starts with the action's [default], and every occurrence
    of one of its option strings stores [const]. *)
Definition namespace_entry (a : action) (seen : bool) : pyval :=
  if seen then const a else default a.

End Argparse.

(** ** genui.py *)

(** The attributes of a [GenericUI] that the methods below read or write;
    [ui_title = None] is [title=None]. *)
Record GenericUI : Type := MkGenericUI {
  ui_parameters : list parameter;
  ui_title : option string;
  ui_version : string
}.

Inductive surface : Type := GuiSurface | CliSurface.

(** What [run] reads from its environment: [sys.argv] and the names of
    the processes above this one ([psutil]'s [parent()] chain, nearest
    first; [parent()] is [None] where the chain ends). *)
Record launch : Type := Launch {
  sys_argv : list string;
  ancestors : list string
}.

Definition attribute_error : exn :=
  OtherException "AttributeError" (Text "'NoneType' object has no attribute 'name'").

Section ModeSelector.

(** [os.path.basename], which depends on the platform. *)
Variable basename : string -> string.

(** [GenericUI.run], up to the choice of the surface: the updated
    object, the updated [sys.argv] and the surface that is loaded. *)
Definition run (self : GenericUI) (env : launch)
  : result (GenericUI * list string * surface) :=
  match sys_argv env with
  | [] => Raise (OtherException "IndexError" (Text "list index out of range"))
  | argv0 :: _ =>
      let script := basename argv0 in
      let title := match ui_title self with None => script | Some t => t end in
      match ancestors env with
      | [] => Raise attribute_error
      | exe :: above =>
          match above with
          | [] => Raise attribute_error
          | parent_exe :: _ =>
              let load_ui := String.eqb script exe && String.eqb parent_exe "explorer.exe" in
              let '(argv, load_ui) :=
                if str_in "--gui" (sys_argv env)
                then (default (sys_argv env) (list_remove "--gui" (sys_argv env)), true)
                else (sys_argv env, load_ui) in
              Ok (MkGenericUI (ui_parameters self) (Some title) (ui_version self),
                  argv,
                  if load_ui then GuiSurface else CliSurface)
          end
      end
  end.

End ModeSelector.

(** [not x] for an attribute that is [None] or a string. *)
Definition opt_truthy (o : option string) : bool :=
  match o with Some s => truthy (PStr s) | None => false end.

(** [error_wrap(func)]: any exception of [func] becomes an
    [argparse.ArgumentTypeError] with the same text. *)
Definition error_wrap (func : callable) : callable :=
  Callable None 1 (fun value =>
    match c_call func value with
    | Ok v => Ok v
    | Raise e => Raise (ArgumentTypeError (exn_message e))
    end).

(** The body of the loop of [load_cli]: the identifiers and the specifiers
    built for one parameter. *)
Definition cli_argument (parameter : parameter) : list string * Argparse.kwargs :=
  let flagless := negb (opt_truthy (p_short parameter)) && negb (opt_truthy (p_long parameter)) in
  let identifiers :=
    if flagless then [p_name parameter]
    else (match p_short parameter with Some s => [s] | None => [] end ++
          match p_long parameter with Some l => [l] | None => [] end)%list in
  let dest := if flagless then None else Some (p_name parameter) in
  let action :=
    if negb (py_eq (p_nargs parameter) (PInt 1)) then
      if py_eq (p_nargs parameter) (PInt 0)
      then Some (if negb (truthy (p_default parameter)) then "store_true" else "store_false")
      else None
    else None in
  let nargs :=
    if negb (py_eq (p_nargs parameter) (PInt 1)) then
      if py_eq (p_nargs parameter) (PInt 0) then None else Some (p_nargs parameter)
    else None in
  let dflt :=
    match p_default parameter with PNone => None | d => Some d end in
  let type :=
    match action with
    | None =>
        let verify_func := p_verify parameter in
        Some (if negb (is_type_object verify_func) then error_wrap verify_func
              else verify_func)
    | Some _ => None
    end in
  (identifiers,
   Argparse.Kwargs dest action nargs dflt (p_meta parameter) (p_help parameter) type).

(** The loop of [load_cli]: one [add_argument] per parameter, in order;
    the first exception ends it. *)
Fixpoint add_arguments (parser : Argparse.parser) (parameters : list parameter)
  : result Argparse.parser :=
  match parameters with
  | [] => Ok parser
  | parameter :: rest =>
      let '(identifiers, specifiers) := cli_argument parameter in
      match Argparse.add_argument parser identifiers specifiers with
      | Ok parser' => add_arguments parser' rest
      | Raise e => Raise e
      end
  end.

(** [load_cli] up to [parse_args]: the object is only read. *)
Definition load_cli (self : GenericUI) : GenericUI * result Argparse.parser :=
  (self, add_arguments Argparse.ArgumentParser (ui_parameters self)).

(** The namespace entry of a boolean parameter after [load_cli] parsed a
    command line on which its flag was [seen] or not. *)
Definition cli_flag_value (parameter : parameter) (seen : bool) : result pyval :=
  let '(identifiers, specifiers) := cli_argument parameter in
  match Argparse.add_argument Argparse.ArgumentParser identifiers specifiers with
  | Ok parser =>
      match Argparse.actions parser with
      | a :: _ => Ok (Argparse.namespace_entry a seen)
      | [] => Raise (OtherException "KeyError" (Text (p_name parameter)))
      end
  | Raise e => Raise e
  end.

(** [type_check(type_name)] *)
Definition type_check (name : string) : callable :=
  Callable None 1 (fun value =>
    if negb (String.eqb (type_name value) name)
    then Raise (ValueError (NotOfType value name))
    else Ok value).

(** The loop of [list_wrap]'s [wrapped]: [checked_list.append(func(value))]
    for each piece in turn. *)
Fixpoint list_wrap_loop (func : callable) (pieces : list string) (checked_list : list pyval)
  : result (list pyval) :=
  match pieces with
  | [] => Ok checked_list
  | value :: rest =>
      match c_call func (PStr value) with
      | Ok v => list_wrap_loop func rest (checked_list ++ [v])%list
      | Raise e => Raise e
      end
  end.

(** [list_wrap(func)]; [values.split] exists on strings only. *)
Definition list_wrap (func : callable) : callable :=
  Callable None 1 (fun values =>
    match values with
    | PStr s =>
        match list_wrap_loop func (map strip (split_comma s)) [] with
        | Ok checked_list => Ok (PList checked_list)
        | Raise e => Raise e
        end
    | _ => Raise (OtherException "AttributeError" (Text "object has no attribute 'split'"))
    end).

(** The validator that [load_gui] stores back into [parameter.verify]. *)
Definition gui_verify (parameter : parameter) : callable :=
  let verify_func := p_verify parameter in
  let verify_func :=
    match c_type verify_func with
    | Some name => type_check name
    | None => verify_func
    end in
  if negb (py_in (p_nargs parameter) [PInt 0; PInt 1; PStr "?"])
  then list_wrap verify_func
  else verify_func.

Definition set_verify (param : parameter) (f : callable) : parameter :=
  MkParameter (p_name param) (p_short param) (p_long param)
    (p_meta param) (p_nargs param) (p_default param)
    (p_value param) (p_widget param) (p_help param) f.

Definition set_value (param : parameter) (v : pyval) : parameter :=
  MkParameter (p_name param) (p_short param) (p_long param)
    (p_meta param) (p_nargs param) (p_default param)
    v (p_widget param) (p_help param) (p_verify param).

(** The first loop of [load_gui]: [parameter.verify = verify_func] for
    every parameter. *)
Definition load_gui_prepare (self : GenericUI) : GenericUI :=
  MkGenericUI
    (map (fun parameter => set_verify parameter (gui_verify parameter)) (ui_parameters self))
    (ui_title self) (ui_version self).

(** The keyword arguments that [load_gui] passes to the callback after a
    round, in the order of the parameters. *)
Definition callback_args (parameters : list parameter) : list (string * pyval) :=
  map (fun parameter => (p_name parameter, p_value parameter)) parameters.

(** ** gengui.py *)

Definition LF : string := String "010"%char EmptyString.
Definition CR : string := String "013"%char EmptyString.

(** A dictionary with string keys whose order matters ([OrderedDict]) or
    that is a literal. *)
Fixpoint dict_get {A} (key : string) (d : list (string * A)) : option A :=
  match d with
  | [] => None
  | (k, v) :: d' => if String.eqb k key then Some v else dict_get key d'
  end.

Fixpoint dict_set {A} (key : string) (v : A) (d : list (string * A)) : list (string * A) :=
  match d with
  | [] => [(key, v)]
  | (k, w) :: d' => if String.eqb k key then (k, v) :: d' else (k, w) :: dict_set key v d'
  end.

(** [GenericGUI.help_text] *)
Definition help_text : list (string * pyval) :=
  [("dir", PStr "Pick a directory...");
   ("file", PStr "Pick a file...");
   ("fileordir", PStr "Pick a file or directory...");
   ("text", PStr "Enter...");
   ("pass", PStr "");
   ("box", PBool false)].

(** A widget of [self.entries]: the text of a [ttk.Entry] ([entry.get()]),
    the variable of a [ttk.Checkbutton] ([entry.var.get()]), the style set
    by [entry.config(style=...)] and the text bound as a tool tip. *)
Record entry : Type := Entry {
  e_text : string;
  e_var : bool;
  e_style : string;
  e_tip : option message
}.

(** [ToolTip(widget, text)] binds the text unless it is falsy;
    [ToolTip(widget, False)] unbinds. *)
Definition ToolTip (text : option message) : option message :=
  match text with
  | Some (Text s) => if truthy (PStr s) then text else None
  | Some (NotOfType _ _) => text
  | None => None
  end.

Definition config_style (e : entry) (style : string) (tip : option message) : entry :=
  Entry (e_text e) (e_var e) style (ToolTip tip).

(** The widgets that [create_log_window] makes: the list box, the
    [IntVar] of the progress bar and whether the bar is placed.  After
    [on_log_quit] they are destroyed ([alive = false]) and Tk calls on them
    raise [TclError]. *)
Record log_widgets : Type := LogWidgets {
  alive : bool;
  log_list : list string;
  progress : Z;
  bar_placed : bool
}.

(** The attributes of a [GenericGUI].  [widgets = None] until the first
    [create_log_window]; [event] is the flag of the [threading.Event]. *)
Record GenericGUI : Type := MkGenericGUI {
  parameters : list (string * list parameter);
  mode : string;
  entries : gmap string (list entry);
  should_quit : bool;
  event : bool;
  inputs_disabled : bool;
  widgets : option log_widgets;
  processing : bool;
  msg_buffer : string;
  carriage_return : bool
}.

Definition with_fields (self : GenericGUI) (ps : list (string * list parameter))
    (es : gmap string (list entry)) : GenericGUI :=
  MkGenericGUI ps (mode self) es (should_quit self) (event self)
    (inputs_disabled self) (widgets self) (processing self) (msg_buffer self)
    (carriage_return self).

Definition with_log (self : GenericGUI) (w : option log_widgets) (buffer : string)
    (cr : bool) : GenericGUI :=
  MkGenericGUI (parameters self) (mode self) (entries self) (should_quit self)
    (event self) (inputs_disabled self) w (processing self) buffer cr.

Definition with_progress (self : GenericGUI) (w : log_widgets) (busy : bool) : GenericGUI :=
  MkGenericGUI (parameters self) (mode self) (entries self) (should_quit self)
    (event self) (inputs_disabled self) (Some w) busy (msg_buffer self)
    (carriage_return self).

Definition with_signals (self : GenericGUI) (quit ev disabled : bool)
    (w : option log_widgets) : GenericGUI :=
  MkGenericGUI (parameters self) (mode self) (entries self) quit ev disabled w
    (processing self) (msg_buffer self) (carriage_return self).

(** The list box when Tk calls on it succeed. *)
Definition live_list (self : GenericGUI) : option (list string) :=
  match widgets self with
  | Some w => if alive w then Some (log_list w) else None
  | None => None
  end.

Definition set_log_list (w : option log_widgets) (l : list string) : option log_widgets :=
  match w with
  | Some w => Some (LogWidgets (alive w) l (progress w) (bar_placed w))
  | None => None
  end.

(** [GenericGUI.log].  Inside the [try], a call on a missing or destroyed
    list box raises; the [except] swallows it and the [finally] empties
    the buffer.  [delete(size() - 1)] on an empty list box deletes
    nothing. *)
Definition log (self : GenericGUI) (msg : string) : GenericGUI :=
  if negb (str_in msg [LF; CR]) then
    with_log self (widgets self) (msg_buffer self +:+ msg) (carriage_return self)
  else
    match live_list self with
    | Some l =>
        let l := if carriage_return self then removelast l else l in
        let cr := String.eqb msg CR in
        with_log self (set_log_list (widgets self) (l ++ [msg_buffer self])%list)
          EmptyString cr
    | None =>
        if carriage_return self
        then with_log self (widgets self) EmptyString (carriage_return self)
        else with_log self (widgets self) EmptyString (String.eqb msg CR)
    end.

(** A stream of fragments written one after the other. *)
Definition log_all (self : GenericGUI) (msgs : list string) : GenericGUI :=
  fold_left log msgs self.

(** [print('completed', completed)] while [sys.stdout.write] is [self.log]:
    one write per object, separator and line end. *)
Definition print_completed (self : GenericGUI) (completed : bool) : GenericGUI :=
  log_all self ["completed"; " "; if completed then "True" else "False"; LF].

Definition tcl_error : exn := OtherException "TclError" (Text "bad window path name").

(** The widgets of the log window for a Tk call on one of them: a missing
    attribute or a destroyed widget raises. *)
Definition live_widgets (self : GenericGUI) (attribute : string) : result log_widgets :=
  match widgets self with
  | None =>
      Raise (OtherException "AttributeError"
               (Text ("'GenericGUI' object has no attribute '" +:+ attribute +:+ "'")))
  | Some w => if alive w then Ok w else Raise tcl_error
  end.

(** [GenericGUI.set_progress]; [self.progress.set] works on a variable,
    which outlives the window. *)
Definition set_progress (self : GenericGUI) (percentage : Z) : result GenericGUI :=
  let clamped_percentage := Z.max 0 (Z.min percentage 100) in
  if negb (processing self) && (0 <? clamped_percentage) then
    match live_widgets self "progress_bar" with
    | Ok w =>
        Ok (with_progress self
              (LogWidgets (alive w) (log_list w) clamped_percentage true) true)
    | Raise e => Raise e
    end
  else if processing self && (clamped_percentage =? 100) then
    match live_widgets self "progress_bar" with
    | Ok w =>
        Ok (with_progress self
              (LogWidgets (alive w) (log_list w) clamped_percentage false) false)
    | Raise e => Raise e
    end
  else
    match widgets self with
    | Some w =>
        Ok (with_progress self
              (LogWidgets (alive w) (log_list w) clamped_percentage (bar_placed w))
              (processing self))
    | None =>
        Raise (OtherException "AttributeError"
                 (Text "'GenericGUI' object has no attribute 'progress'"))
    end.

(** A sequence of calls; the first exception ends it. *)
Fixpoint set_progress_all (self : GenericGUI) (percentages : list Z) : result GenericGUI :=
  match percentages with
  | [] => Ok self
  | p :: rest =>
      match set_progress self p with
      | Ok self' => set_progress_all self' rest
      | Raise e => Raise e
      end
  end.

(** [create_log_window]: a fresh list box, a fresh [IntVar] and the bar
    forgotten; [processing] is not touched. *)
Definition create_log_window (self : GenericGUI) : GenericGUI :=
  with_signals self (should_quit self) (event self) (inputs_disabled self)
    (Some (LogWidgets true [] 0 false)).

(** [set_disabled(self.root_window, bool)] *)
Definition set_disabled (self : GenericGUI) (b : bool) : GenericGUI :=
  with_signals self (should_quit self) (event self) b (widgets self).

(** [self.event.set()] *)
Definition event_set (self : GenericGUI) : GenericGUI :=
  with_signals self (should_quit self) true (inputs_disabled self) (widgets self).

(** [on_quit] *)
Definition on_quit (self : GenericGUI) : GenericGUI :=
  with_signals self true true (inputs_disabled self) (widgets self).


(** The body of the loop of [confirm] for one parameter and its entry:
    the parameter, the entry and [completed] afterwards. *)
Definition confirm_field (param : parameter) (e : entry) (completed : bool)
  : parameter * entry * bool :=
  if String.eqb (p_widget param) "box" then
    (set_value param (PBool (e_var e)), e, completed)
  else
    match c_call (p_verify param) (PStr (e_text e)) with
    | Ok value =>
        match dict_get (p_widget param) help_text with
        | Some placeholder =>
            if negb (py_eq value placeholder)
            then (set_value param value, config_style e "TEntry" None, completed)
            else (param, e, completed)
        | None =>
            (param,
             config_style e "Custom.TEntry"
               (Some (Text ("'" +:+ p_widget param +:+ "'"))),
             false)
        end
    | Raise exc =>
        (param, config_style e "Custom.TEntry" (Some (exn_message exc)), false)
    end.

(** The loop of [confirm]: the [i]-th parameter goes with the [i]-th
    entry; a missing entry is an [IndexError], which leaves what was done
    so far. *)
Fixpoint confirm_loop (params : list parameter) (es : list entry) (completed : bool)
  : list parameter * list entry * result bool :=
  match params with
  | [] => ([], es, Ok completed)
  | param :: params' =>
      match es with
      | [] =>
          (params, [], Raise (OtherException "IndexError" (Text "list index out of range")))
      | e :: es' =>
          let '(param1, e1, completed1) := confirm_field param e completed in
          let '(ps, es1, r) := confirm_loop params' es' completed1 in
          (param1 :: ps, e1 :: es1, r)
      end
  end.

Definition key_error (key : string) : exn :=
  OtherException "KeyError" (Text ("'" +:+ key +:+ "'")).

(** The end of [confirm]: with every field passed, the inputs are
    disabled, the log window is opened and the event is set. *)
Definition submit (self : GenericGUI) (completed : bool) : GenericGUI :=
  if completed then event_set (create_log_window (set_disabled self true)) else self.

(** [confirm] when the active mode has its entries: the loop mutates the
    parameters and the entries in place. *)
Definition confirm_fields (self : GenericGUI) (params : list parameter) (es : list entry)
  : GenericGUI * result unit :=
  let '(params', es', r) := confirm_loop params es true in
  let self :=
    with_fields self (dict_set (mode self) params' (parameters self))
      (<[mode self := es']> (entries self)) in
  match r with
  | Raise exc => (self, Raise exc)
  | Ok completed => (submit (print_completed self completed) completed, Ok tt)
  end.

(** [GenericGUI.confirm].  [self.entries[mode]] is looked up inside the
    loop: without parameters it is not needed. *)
Definition confirm (self : GenericGUI) : GenericGUI * result unit :=
  match dict_get (mode self) (parameters self) with
  | None => (self, Raise (key_error (mode self)))
  | Some params =>
      match entries self !! mode self with
      | Some es => confirm_fields self params es
      | None =>
          match params with
          | [] => (submit (print_completed self true) true, Ok tt)
          | _ :: _ => (self, Raise (key_error (mode self)))
          end
      end
  end.

(** ** Notions used in the statements *)

(** The flag strings that the constructor derives from its arguments. *)
Definition short_of (a : init_args) : option string := (fun s => "-" +:+ s) <$> a_short a.
Definition long_of (a : init_args) : option string := (fun s => "--" +:+ s) <$> a_long a.

(** The example of genui.py:
    [Parameter(name='option', short='o', long='option', nargs=0,
               default=False, help=...)]. *)
Definition option_args : init_args :=
  InitArgs "option" (Some "o") (Some "option") None (PInt 0) (PBool false)
    identity_verify (Some "an option that can left out to be set to False") "text".

(** The parameter that the constructor builds from them. *)
Definition option_parameter : parameter :=
  MkParameter "option" (Some "-o") (Some "--option") None (PInt 0) (PBool false)
    (PBool false) "box" (Some "an option that can left out to be set to False")
    identity_verify.

(** The sentence of the specification about [meta], read on the arguments
    [a] and the parameter [p] constructed from them. *)
Definition meta_as_specified (a : init_args) (p : parameter) : Prop :=
  (a_meta a = None ->
   ~ (exists l, a_long a = Some l /\ l <> a_name a) ->
   p_meta p = Some (a_name a)) /\
  (forall m, a_meta a = Some m -> p_meta p = Some m).

(** What a boolean flag should yield: the negation of the default's truth
    value when the flag is given, and the default (or [False] when there
    is none) when it is not. *)
Definition flag_polarity (dflt : pyval) (seen : bool) : pyval :=
  if seen then PBool (negb (truthy dflt))
  else match dflt with PNone => PBool false | d => d end.

(** [Parameter(name='verbose', short='v', nargs=0, default=False)] *)
Definition verbose_args : init_args :=
  InitArgs "verbose" (Some "v") None None (PInt 0) (PBool false) identity_verify
    None "text".

(** The parameter that the constructor builds from them: the meta is the
    name. *)
Definition verbose_parameter : parameter :=
  MkParameter "verbose" (Some "-v") None (Some "verbose") (PInt 0) (PBool false)
    (PBool false) "box" None identity_verify.

(** What [split] and [strip] are specified to do: the pieces joined by
    commas give the text back and hold no comma; stripping removes a run
    of white space at each end and leaves none there. *)
Fixpoint join_comma (l : list string) : string :=
  match l with
  | [] => EmptyString
  | [piece] => piece
  | piece :: rest => piece +:+ String "," (join_comma rest)
  end.

Fixpoint has_comma (s : string) : bool :=
  match s with
  | String c s' => Ascii.eqb c "," || has_comma s'
  | EmptyString => false
  end.

Fixpoint all_space (s : string) : bool :=
  match s with
  | String c s' => isspace c && all_space s'
  | EmptyString => true
  end.

Definition head_space (s : string) : bool :=
  match s with String c _ => isspace c | EmptyString => false end.

Fixpoint last_space (s : string) : bool :=
  match s with
  | EmptyString => false
  | String c EmptyString => isspace c
  | String _ s' => last_space s'
  end.

(** The validator that the pieces go through: the type check for a bare
    type, the parameter's own validator otherwise. *)
Definition scalar_verify (p : parameter) : callable :=
  match c_type (p_verify p) with
  | Some name => type_check name
  | None => p_verify p
  end.

(** The instance right after [create_log_window] made its widgets, before
    any progress was reported, when the flag [processing] is off: the first
    log window, or one opened after the bar was hidden at 100. *)
Definition fresh_progress (self : GenericGUI) : Prop :=
  processing self = false /\
  exists l, widgets self = Some (LogWidgets true l 0 false).

Definition clamp (percentage : Z) : Z := Z.max 0 (Z.min percentage 100).

Definition stored_progress (self : GenericGUI) : option Z := progress <$> widgets self.

Definition bar_visible (self : GenericGUI) : bool :=
  match widgets self with Some w => bar_placed w | None => false end.

(** Along calls of [set_progress] the flag [processing] tells whether the
    bar is placed, and the widgets stay alive. *)
Definition progress_invariant (self : GenericGUI) : Prop :=
  exists w, widgets self = Some w /\ alive w = true /\ bar_placed w = processing self.

(** The sentence of the specification about the visibility of the bar. *)
Definition visible_only_between (self : GenericGUI) : Prop :=
  bar_visible self = true ->
  exists v, stored_progress self = Some v /\ 0 < v < 100.

(** An instance whose log window was just opened by a first submission. *)
Definition fresh_gui : GenericGUI :=
  MkGenericGUI [] "1.0" ∅ false false true (Some (LogWidgets true [] 0 false))
    false "" false.

(** The parameters and the entries of the active mode. *)
Definition active_parameters (self : GenericGUI) : list parameter :=
  default [] (dict_get (mode self) (parameters self)).

Definition active_entries (self : GenericGUI) : list entry :=
  default [] (entries self !! mode self).

(** [set_entry(entry, text)] *)
Definition set_entry (e : entry) (text : string) : entry :=
  Entry text (e_var e) (e_style e) (e_tip e).









(** [Parameter('names', nargs='+')] *)
Definition names_parameter : parameter :=
  MkParameter "names" None None (Some "names") (PStr "+") PNone PNone "text" None
    identity_verify.

(** ** gengui.py: building the form, clicks and captured output *)

(** [self.help_text[widget]] for the widgets whose placeholder is a text. *)
Definition placeholder_text (widget : string) : string :=
  match dict_get widget help_text with
  | Some (PStr s) => s
  | _ => EmptyString
  end.

(** [self.entries.setdefault(key, []).append(e)] *)
Definition entries_append (es : gmap string (list entry)) (key : string) (e : entry)
  : gmap string (list entry) :=
  <[key := (default [] (es !! key) ++ [e])%list]> es.

Definition with_entries (self : GenericGUI) (es : gmap string (list entry)) (quit : bool)
  : GenericGUI :=
  MkGenericGUI (parameters self) (mode self) es quit (event self)
    (inputs_disabled self) (widgets self) (processing self) (msg_buffer self)
    (carriage_return self).

Definition with_mode (self : GenericGUI) (m : string) : GenericGUI :=
  MkGenericGUI (parameters self) m (entries self) (should_quit self) (event self)
    (inputs_disabled self) (widgets self) (processing self) (msg_buffer self)
    (carriage_return self).

(** A new [ttk.Entry] or [ttk.Checkbutton]: no text, the variable off, the
    default style, no tool tip. *)
Definition new_entry : entry := Entry EmptyString false EmptyString None.

Section CreateWidget.

(** The text that Tk shows for an object that is not a string, when
    [entry.insert] is given the parameter's value. *)
Variable tk_text : pyval -> string.

Definition inserted_text (v : pyval) : string :=
  match v with PStr s => s | _ => tk_text v end.

(** [create_widget], for what it leaves in [self.entries] and
    [self.should_quit]; the check box starts at [help_text['box']]. *)
Definition create_widget (self : GenericGUI) (key : string) (param : parameter)
  : GenericGUI :=
  let defaultValue := p_value param in
  if String.eqb (p_widget param) "box" then
    with_entries self (entries_append (entries self) key new_entry) (should_quit self)
  else if String.eqb (p_widget param) "dir" then
    with_entries self
      (entries_append (entries self) key (set_entry new_entry (placeholder_text "dir")))
      (should_quit self)
  else if String.eqb (p_widget param) "file" then
    with_entries self
      (entries_append (entries self) key (set_entry new_entry (placeholder_text "file")))
      (should_quit self)
  else if String.eqb (p_widget param) "fileordir" then
    with_entries self
      (entries_append (entries self) key
         (set_entry new_entry (placeholder_text "fileordir")))
      (should_quit self)
  else if String.eqb (p_widget param) "text" then
    with_entries self
      (entries_append (entries self) key
         (set_entry new_entry
            (if truthy defaultValue then inserted_text defaultValue
             else placeholder_text "text")))
      (should_quit self)
  else if String.eqb (p_widget param) "pass" then
    with_entries self
      (entries_append (entries self) key (set_entry new_entry (placeholder_text "pass")))
      (should_quit self)
  else
    with_entries self (entries_append (entries self) key new_entry) true.

(** The entry that a parameter gets when the form is built: the
    placeholder of its widget, or the parameter's value in a text field
    when that value is truthy; a check box is off. *)
Definition initial_entry (param : parameter) : entry :=
  if String.eqb (p_widget param) "text" then
    set_entry new_entry
      (if truthy (p_value param) then inserted_text (p_value param)
       else placeholder_text "text")
  else set_entry new_entry (placeholder_text (p_widget param)).

(** The widget is none of the kinds that [create_widget] knows. *)
Definition unknown_widget (param : parameter) : bool :=
  match dict_get (p_widget param) help_text with Some _ => false | None => true end.

(** The loop of [init_ui] over the modes, last mode first, and over the
    parameters of each mode. *)
Definition create_widgets (self : GenericGUI) : GenericGUI :=
  fold_left
    (fun s kv => fold_left (fun s param => create_widget s (fst kv) param) (snd kv) s)
    (rev (parameters self)) self.

(** [init_ui], for the entries and the mode.  With several modes the
    [ttk.OptionMenu] sets the variable to its default, the first key,
    unless that key is falsy; with one mode it is set outright; without
    any mode [list(...)[0]] is an [IndexError]. *)
Definition init_ui (self : GenericGUI) : result GenericGUI :=
  let self1 := create_widgets self in
  match parameters self with
  | [] => Raise (OtherException "IndexError" (Text "list index out of range"))
  | (first, _) :: others =>
      match others with
      | _ :: _ =>
          Ok (if truthy (PStr first) then with_mode self1 first else self1)
      | [] => Ok (with_mode self1 first)
      end
  end.

End CreateWidget.

(** [handle_click(entry)]: a text that is one of the values of
    [help_text] is deleted. *)
Definition handle_click (e : entry) : entry :=
  if py_in (PStr (e_text e)) (map snd help_text) then set_entry e EmptyString else e.


Section CapturedOutput.

(** [bytes([b]).decode(sys.stdout.encoding, errors='replace')]: the text
    that decoding one byte on its own gives, which depends on the encoding
    of the console. *)
Variable decode : ascii -> string.



End CapturedOutput.

(** The dictionary that [load_gui] fills for the callback:
    [args[parameter.name] = parameter.value] for each parameter in turn. *)
Definition load_gui_args (parameters : list parameter) : list (string * pyval) :=
  fold_left
    (fun args parameter => dict_set (p_name parameter) (p_value parameter) args)
    parameters [].

(** The flag that one call of [register_flag] adds when it goes through. *)
Definition flag_set (flag : option string) : gset string :=
  match flag with Some f => {[ f ]} | None => ∅ end.

(** The flag strings of a parameter, short first. *)
Definition flag_list (p : parameter) : list string :=
  (match p_short p with Some f => [f] | None => [] end ++
   match p_long p with Some f => [f] | None => [] end)%list.

(** * Properties *)

(** ** The constructor and the flag registry *)

Lemma register_flag_grows flag text flags flags' r :
  register_flag flag text flags = (flags', r) -> flags ⊆ flags'.
Proof.
  unfold register_flag. destruct flag as [f|]; [case_bool_decide|];
    intros [= <- <-]; set_solver.
Qed.

Lemma register_flag_ok flag text flags flags' :
  register_flag flag text flags = (flags', Ok tt) ->
  match flag with
  | Some f => (f ∉ flags) /\ flags' = {[ f ]} ∪ flags
  | None => flags' = flags
  end.
Proof.
  unfold register_flag. destruct flag as [f|]; [case_bool_decide|];
    intros [= <-]; auto.
Qed.

Lemma register_flag_used f text flags :
  f ∈ flags ->
  register_flag (Some f) text flags = (flags, Raise (ValueError (Text text))).
Proof. intros Hin. unfold register_flag. by rewrite bool_decide_eq_true_2. Qed.

Lemma register_flag_fresh f text flags :
  f ∉ flags -> register_flag (Some f) text flags = ({[ f ]} ∪ flags, Ok tt).
Proof. intros Hin. unfold register_flag. by rewrite bool_decide_eq_false_2. Qed.

(** The registry is append-only: a construction, failed or not, never
    removes a flag. *)
Lemma Parameter_init_grows a flags flags' r :
  Parameter_init a flags = (flags', r) -> flags ⊆ flags'.
Proof.
  unfold Parameter_init, ctor_bind, ctor_ret, ctor_raise.
  destruct (register_flag _ _ flags) as [f1 [[]|e1]] eqn:E1;
    [|intros [= <- <-]; eauto using register_flag_grows].
  destruct (register_flag _ _ f1) as [f2 [[]|e2]] eqn:E2.
  - apply register_flag_grows in E1, E2.
    destruct (Nat.eqb _ 1); intros [= <- <-]; set_solver.
  - apply register_flag_grows in E1, E2. intros [= <- <-]. set_solver.
Qed.

(** A successful construction leaves the parameter's flags registered, and
    stores the flag strings with their dashes. *)
Lemma Parameter_init_ok a flags flags' p :
  Parameter_init a flags = (flags', Ok p) ->
  p_short p = short_of a /\ p_long p = long_of a /\
  flags_of p ⊆ flags' /\ c_params (a_verify a) = 1%nat /\
  p_name p = a_name a /\ p_meta p = init_meta (a_meta a) (a_name a) (a_long a) /\
  p_nargs p = a_nargs a /\ p_default p = a_default a /\ p_value p = a_default a /\
  p_verify p = a_verify a /\ p_help p = a_help a.
Proof.
  unfold Parameter_init, ctor_bind, ctor_ret, ctor_raise.
  destruct (register_flag _ _ flags) as [f1 [[]|e1]] eqn:E1; [|discriminate].
  destruct (register_flag _ _ f1) as [f2 [[]|e2]] eqn:E2; [|discriminate].
  destruct (Nat.eqb _ 1) eqn:E3; [|discriminate].
  intros [= <- <-]. simpl. apply Nat.eqb_eq in E3.
  pose proof (register_flag_grows _ _ _ _ _ E2) as G2.
  apply register_flag_ok in E1, E2.
  repeat split; try done.
  unfold flags_of, short_of, long_of in *. simpl.
  destruct (a_short a), (a_long a); simpl in *; set_solver.
Qed.

Lemma construct_all_registered l : forall flags flags' ps,
  construct_all l flags = (flags', Ok ps) ->
  forall p, p ∈ ps -> flags_of p ⊆ flags'.
Proof.
  induction l as [|a l IH]; simpl; intros flags flags' ps.
  - intros [= <- <-] p Hp. by apply elem_of_nil in Hp.
  - unfold ctor_bind, ctor_ret.
    destruct (Parameter_init a flags) as [f1 [p1|e1]] eqn:E1; [|discriminate].
    destruct (construct_all l f1) as [f2 [ps2|e2]] eqn:E2; [|discriminate].
    intros [= <- <-] p Hp. apply elem_of_cons in Hp as [->|Hp].
    + apply Parameter_init_ok in E1 as (_ & _ & Hf & _).
      assert (f1 ⊆ f2); [|set_solver].
      clear -E2. revert f1 f2 ps2 E2. induction l as [|b l IHl]; simpl; intros f1 f2 ps2.
      * by intros [= <- <-].
      * unfold ctor_bind, ctor_ret.
        destruct (Parameter_init b f1) as [g1 [q1|e1]] eqn:F1; [|discriminate].
        destruct (construct_all l g1) as [g2 [qs2|e2]] eqn:F2; [|discriminate].
        intros [= <- <-]. apply Parameter_init_grows in F1. apply IHl in F2. set_solver.
    + eapply IH; eauto.
Qed.

(** Every exception of the constructor is a [ValueError]. *)
Lemma Parameter_init_raises_ValueError a flags flags' e :
  Parameter_init a flags = (flags', Raise e) -> exists m, e = ValueError (Text m).
Proof.
  unfold Parameter_init, ctor_bind, ctor_ret, ctor_raise.
  destruct (register_flag _ _ flags) as [f1 [[]|e1]] eqn:E1.
  - destruct (register_flag _ _ f1) as [f2 [[]|e2]] eqn:E2.
    + destruct (Nat.eqb _ 1); [discriminate|]. intros [= <- <-]. eauto.
    + intros [= <- <-]. unfold register_flag in E2.
      destruct (_ <$> a_long a); [case_bool_decide|]; inversion E2; eauto.
  - intros [= <- <-]. unfold register_flag in E1.
    destruct (_ <$> a_short a); [case_bool_decide|]; inversion E1; eauto.
Qed.

(** A used flag or a validator of the wrong arity makes the constructor
    raise, whatever the other arguments are. *)
Lemma Parameter_init_rejects a flags :
  (exists f, f ∈ flags /\ (short_of a = Some f \/ long_of a = Some f)) \/
  c_params (a_verify a) <> 1%nat ->
  exists flags' m, Parameter_init a flags = (flags', Raise (ValueError (Text m))).
Proof.
  intros H.
  destruct (Parameter_init a flags) as [flags' [p|e]] eqn:E.
  - exfalso. pose proof (Parameter_init_ok _ _ _ _ E) as (Hs & Hl & _ & Hv & _).
    destruct H as [(f & Hin & Hf)|H]; [|done].
    revert E. unfold Parameter_init, ctor_bind, ctor_ret, ctor_raise.
    fold (short_of a) (long_of a).
    destruct (register_flag (short_of a) _ flags) as [f1 [[]|e1]] eqn:E1; [|discriminate].
    destruct (register_flag (long_of a) _ f1) as [f2 [[]|e2]] eqn:E2; [|discriminate].
    intros _. pose proof (register_flag_grows _ _ _ _ _ E1) as G1.
    apply register_flag_ok in E1, E2.
    destruct Hf as [Hf|Hf]; rewrite Hf in *; set_solver.
  - destruct (Parameter_init_raises_ValueError _ _ _ _ E) as [m ->]. eauto.
Qed.

(** C1: after any run of successful constructions, and whatever was
    registered since, constructing a parameter whose short or long flag
    string belongs to one of the parameters constructed before, or whose
    validator does not take exactly one parameter, raises a [ValueError]:
    the constructor itself returns the exception. *)
Theorem Parameter_init_configuration_error
    (l : list init_args) (flags0 flags1 used_flags : gset string)
    (ps : list parameter) (a : init_args) :
  construct_all l flags0 = (flags1, Ok ps) ->
  flags1 ⊆ used_flags ->
  (exists p f, p ∈ ps /\ f ∈ flags_of p /\ (short_of a = Some f \/ long_of a = Some f)) \/
  c_params (a_verify a) <> 1%nat ->
  exists flags' m,
    Parameter_init a used_flags = (flags', Raise (ValueError (Text m))).
Proof.
  intros Hall Hsub H. apply Parameter_init_rejects.
  destruct H as [(p & f & Hp & Hf & Ha)|H]; [left|by right].
  exists f. split; [|done].
  pose proof (construct_all_registered _ _ _ _ Hall p Hp). set_solver.
Qed.

Lemma option_parameter_constructed :
  Parameter_init option_args ∅ = ({[ "--option" ]} ∪ ({[ "-o" ]} ∪ ∅), Ok option_parameter).
Proof. vm_compute. reflexivity. Qed.

Lemma Parameter_init_configuration_error_witness :
  exists flags' m,
    Parameter_init (InitArgs "other" (Some "o") None None (PInt 1) PNone
                      identity_verify None "text")
      ({[ "--option" ]} ∪ ({[ "-o" ]} ∪ ∅)) =
    (flags', Raise (ValueError (Text m))).
Proof.
  apply (Parameter_init_configuration_error [option_args] ∅
           ({[ "--option" ]} ∪ ({[ "-o" ]} ∪ ∅)) _ [option_parameter]).
  - simpl. unfold ctor_bind. rewrite option_parameter_constructed. reflexivity.
  - reflexivity.
  - left. exists option_parameter, "-o". split; [apply list_elem_of_here|].
    split; [|left; reflexivity].
    unfold flags_of; simpl. apply elem_of_union_l, elem_of_singleton. reflexivity.
Defined.

(** C10: the constructor is not atomic with respect to the registry.  When
    it raises after a registration (a short flag that was free followed by
    a long flag that is already used, or flags that were free followed by a
    validator of the wrong arity), no parameter exists, yet every flag
    registered before the failure stays in [used_flags]: the short flag in
    the first case, the short and the long flag (or the one that was given)
    in the second, and nothing else is added.  Every later construction
    that uses a flag of that registry, as its short or as its long flag,
    raises the duplicate-flag error. *)
Theorem Parameter_init_not_atomic (a : init_args) (flags : gset string) :
  (forall s, short_of a = Some s -> s ∉ flags) ->
  (exists l, long_of a = Some l /\ l ∈ flag_set (short_of a) ∪ flags) \/
  c_params (a_verify a) <> 1%nat ->
  exists flags' m,
    Parameter_init a flags = (flags', Raise (ValueError (Text m))) /\
    ((exists l, long_of a = Some l /\ l ∈ flag_set (short_of a) ∪ flags) ->
       flags' = flag_set (short_of a) ∪ flags) /\
    ((forall l, long_of a = Some l -> l ∉ flag_set (short_of a) ∪ flags) ->
       flags' = flag_set (long_of a) ∪ (flag_set (short_of a) ∪ flags)) /\
    forall (f : string) (a' : init_args) (later : gset string),
      f ∈ flags' -> flags' ⊆ later ->
      (short_of a' = Some f ->
         Parameter_init a' later =
           (later,
            Raise (ValueError
                     (Text (short_flag_text (default "" (a_short a')) (a_name a')))))) /\
      (long_of a' = Some f ->
         exists later' m',
           Parameter_init a' later = (later', Raise (ValueError (Text m')))).
Proof.
  intros Hshort H.
  assert (register_flag (short_of a)
            (short_flag_text (default "" (a_short a)) (a_name a)) flags =
          (flag_set (short_of a) ∪ flags, Ok tt)) as E1.
  { destruct (short_of a) as [s|] eqn:Es; cbn [flag_set].
    - by rewrite register_flag_fresh by auto.
    - unfold register_flag. f_equal. set_solver. }
  assert (forall flags',
            forall (f : string) (a' : init_args) (later : gset string),
              f ∈ flags' -> flags' ⊆ later ->
              (short_of a' = Some f ->
                 Parameter_init a' later =
                   (later,
                    Raise (ValueError
                             (Text (short_flag_text (default "" (a_short a'))
                                      (a_name a')))))) /\
              (long_of a' = Some f ->
                 exists later' m',
                   Parameter_init a' later = (later', Raise (ValueError (Text m')))))
    as Hblocks.
  { intros flags' f a' later Hf Hsub. split.
    - intros Hs'. unfold Parameter_init, ctor_bind. fold (short_of a'). rewrite Hs'.
      rewrite register_flag_used by set_solver. reflexivity.
    - intros Hl'. apply Parameter_init_rejects. left. exists f.
      split; [set_solver|by right]. }
  unfold Parameter_init, ctor_bind, ctor_ret, ctor_raise.
  fold (short_of a) (long_of a). rewrite E1.
  destruct (long_of a) as [l|] eqn:El.
  - destruct (decide (l ∈ flag_set (short_of a) ∪ flags)) as [Hused|Hfree].
    + rewrite register_flag_used by done.
      eexists _, _. split; [reflexivity|]. split; [done|]. split; [|by apply Hblocks].
      intros Hall. by destruct (Hall l eq_refl).
    + rewrite register_flag_fresh by done.
      destruct H as [(l' & [= <-] & Hl')|Hv]; [done|].
      apply Nat.eqb_neq in Hv. rewrite Hv.
      eexists _, _. split; [reflexivity|]. split; [|split; [done|by apply Hblocks]].
      intros (l' & [= <-] & Hl'). done.
  - destruct H as [(l' & Hl' & _)|Hv]; [discriminate Hl'|].
    unfold register_flag. apply Nat.eqb_neq in Hv. rewrite Hv.
    eexists _, _. split; [reflexivity|]. split; [by intros (l' & Hl' & _)|].
    split; [|by apply Hblocks]. intros _. cbn [flag_set]. set_solver.
Qed.

(** Fresh flags [-v] and [--verbose] with a validator of two parameters:
    both flags stay, and the long one blocks a later construction. *)
Lemma Parameter_init_not_atomic_witness :
  exists flags' m,
    Parameter_init (InitArgs "verbose" (Some "v") (Some "verbose") None (PInt 0)
                      (PBool false) (Callable None 2 (fun v => Ok v)) None "text")
      {[ "--option" ]} = (flags', Raise (ValueError (Text m))) /\
    flags' = {[ "--verbose" ]} ∪ ({[ "-v" ]} ∪ {[ "--option" ]}) /\
    exists later' m',
      Parameter_init (InitArgs "other" None (Some "verbose") None (PInt 1) PNone
                        identity_verify None "text") flags' =
        (later', Raise (ValueError (Text m'))).
Proof.
  destruct (Parameter_init_not_atomic
              (InitArgs "verbose" (Some "v") (Some "verbose") None (PInt 0)
                 (PBool false) (Callable None 2 (fun v => Ok v)) None "text")
              {[ "--option" ]})
    as (flags' & m & E & _ & Hkept & Hblocks).
  - intros s [= <-]. intros H. apply elem_of_singleton in H.
    vm_compute in H. discriminate H.
  - right. simpl. discriminate.
  - assert (flags' = {[ "--verbose" ]} ∪ ({[ "-v" ]} ∪ {[ "--option" ]})) as Hf.
    { apply Hkept. intros l [= <-]. cbn. intros H.
      apply elem_of_union in H as [H|H]; apply elem_of_singleton in H;
        vm_compute in H; discriminate H. }
    exists flags', m. split; [exact E|]. split; [exact Hf|].
    apply (Hblocks "--verbose"); [|reflexivity|reflexivity].
    rewrite Hf. apply elem_of_union_l, elem_of_singleton. reflexivity.
Defined.

(** ** The stored meta *)

(** C6, as stated, fails on the example of genui.py: no meta is given and
    the long flag does not differ from the name, yet the stored meta is
    [None], not the name. *)
Lemma meta_as_specified_counterexample :
  exists flags' p,
    Parameter_init option_args ∅ = (flags', Ok p) /\ ~ meta_as_specified option_args p.
Proof.
  eexists _, _. split; [apply option_parameter_constructed|].
  intros [H _]. simpl in H.
  assert (@None string = Some "option") as E; [|discriminate E].
  apply H; [reflexivity|]. intros (l & [= <-] & Hne). by apply Hne.
Qed.

(** C6, amended: when the long flag is absent or differs from the name,
    the stored meta is the supplied meta if it is a non-empty string and
    the name otherwise; when the long flag equals the name and no meta is
    given, the stored meta is [None]. *)
Theorem Parameter_init_meta (a : init_args) (flags flags' : gset string) (p : parameter) :
  Parameter_init a flags = (flags', Ok p) ->
  (a_long a <> Some (a_name a) ->
   p_meta p = Some (match a_meta a with
                    | Some m => if String.eqb m "" then a_name a else m
                    | None => a_name a
                    end)) /\
  (a_long a = Some (a_name a) -> a_meta a = None -> p_meta p = None).
Proof.
  intros E. apply Parameter_init_ok in E as (_ & _ & _ & _ & _ & -> & _).
  unfold init_meta. split.
  - intros Hne. rewrite bool_decide_eq_false_2 by done. simpl.
    destruct (a_meta a) as [m|]; [|done]. by destruct (String.eqb m "").
  - intros Heq _. by rewrite bool_decide_eq_true_2.
Qed.

Lemma Parameter_init_meta_witness :
  p_meta (MkParameter "verbose" (Some "-v") (Some "--option") (Some "verbose")
            (PInt 1) PNone PNone "text" None identity_verify) = Some "verbose".
Proof.
  refine (proj1 (Parameter_init_meta
           (InitArgs "verbose" (Some "v") (Some "option") None (PInt 1) PNone
              identity_verify None "text")
           ∅ ({[ "--option" ]} ∪ ({[ "-v" ]} ∪ ∅)) _ _) _).
  - vm_compute. reflexivity.
  - simpl. discriminate.
Defined.

(** ** Boolean flags on the command line *)

Lemma starts_with_dash_short s : Argparse.starts_with_dash ("-" +:+ s) = true.
Proof. reflexivity. Qed.

Lemma starts_with_dash_long s : Argparse.starts_with_dash ("--" +:+ s) = true.
Proof. reflexivity. Qed.

Lemma short_flag_string s : "-" +:+ s = String "-" s.
Proof. reflexivity. Qed.

Lemma long_flag_string s : "--" +:+ s = String "-" (String "-" s).
Proof. reflexivity. Qed.

Lemma str_in_help_short s :
  s <> "h" -> s <> "-help" -> str_in ("-" +:+ s) ["-h"; "--help"] = false.
Proof.
  intros H1 H2. rewrite short_flag_string.
  destruct (str_in _ _) eqn:E; [exfalso|done].
  apply existsb_exists in E as (x & Hx & Heq). apply String.eqb_eq in Heq.
  simpl in Hx. destruct Hx as [<-|[<-|[]]]; injection Heq; done.
Qed.

Lemma str_in_help_long s :
  s <> "help" -> str_in ("--" +:+ s) ["-h"; "--help"] = false.
Proof.
  intros H1. rewrite long_flag_string.
  destruct (str_in _ _) eqn:E; [exfalso|done].
  apply existsb_exists in E as (x & Hx & Heq). apply String.eqb_eq in Heq.
  simpl in Hx. destruct Hx as [<-|[<-|[]]]; [destruct s; discriminate|].
  injection Heq; done.
Qed.

Lemma add_action_fresh act :
  existsb (fun s => str_in s ["-h"; "--help"]) (Argparse.option_strings act) = false ->
  Argparse.add_action Argparse.ArgumentParser act =
    Ok (Argparse.Parser ["-h"; "--help"] [act]).
Proof. unfold Argparse.add_action. simpl. by intros ->. Qed.

Lemma pop_action_class_flag k (st : bool) :
  Argparse.kw_action k = Some (if st then "store_true" else "store_false") ->
  Argparse.pop_action_class k =
    Ok (if st then Argparse.StoreTrueAction else Argparse.StoreFalseAction).
Proof. unfold Argparse.pop_action_class. intros ->. by destruct st. Qed.

Lemma cli_flag_value_polarity a flags flags' p seen :
  Parameter_init a flags = (flags', Ok p) ->
  py_eq (a_nargs a) (PInt 0) = true ->
  a_long a = Some (a_name a) ->
  a_name a <> "" -> a_name a <> "help" ->
  a_short a <> Some "h" -> a_short a <> Some "-help" ->
  cli_flag_value p seen = Ok (flag_polarity (a_default a) seen).
Proof.
  intros E Hn Hl Hne Hhelp Hh Hh2.
  apply Parameter_init_ok in E
    as (Hs & Hlg & _ & _ & Hname & Hmeta & Hnargs & Hdef & _).
  unfold cli_flag_value, cli_argument.
  rewrite Hs, Hlg, Hmeta, Hnargs, Hdef, Hname, Hn.
  unfold short_of, long_of, init_meta. rewrite Hl.
  rewrite bool_decide_eq_true_2 by done.
  assert (py_eq (a_nargs a) (PInt 1) = false) as ->.
  { destruct (a_nargs a) as [| [] | z | |]; simpl in *; try done.
    apply Z.eqb_eq in Hn as ->. done. }
  cbn [fmap option_fmap option_map negb opt_truthy andb].
  rewrite long_flag_string.
  assert (truthy (PStr (String "-" (String "-" (a_name a)))) = true) as -> by reflexivity.
  rewrite andb_false_r.
  assert (forall s, s <> "" -> String.eqb s "" = false) as Hnonempty.
  { intros s Hs'. by apply String.eqb_neq. }
  pose proof (str_in_help_long (a_name a) Hhelp) as Hc2. rewrite long_flag_string in Hc2.
  destruct (a_short a) as [s|] eqn:Es; cbn [fmap option_fmap option_map app].
  - rewrite short_flag_string.
    assert (str_in (String "-" s) ["-h"; "--help"] = false) as Hc1.
    { rewrite <- short_flag_string. apply str_in_help_short; congruence. }
    unfold Argparse.add_argument.
    cbn [Argparse.kw_dest Argparse.kw_nargs Argparse.kw_default Argparse.kw_metavar
         Argparse.kw_type Argparse.kw_action Argparse.kw_help forallb
         Argparse.starts_with_dash negb andb option.default].
    change (Ascii.eqb "-" "-") with true. cbn [andb negb].
    unfold id. rewrite (Hnonempty _ Hne).
    rewrite (pop_action_class_flag _ (negb (truthy (a_default a)))) by reflexivity.
    destruct (truthy (a_default a)) eqn:Ht; cbn [negb];
      cbn [Argparse.make_action Argparse.kw_nargs Argparse.kw_metavar Argparse.kw_type];
      (rewrite add_action_fresh by (cbn [Argparse.option_strings existsb]; by rewrite Hc1, Hc2));
      cbn [Argparse.actions]; unfold Argparse.namespace_entry, flag_polarity;
      cbn [Argparse.const Argparse.default Argparse.kw_default];
      rewrite Ht; destruct seen; try reflexivity;
      destruct (a_default a); try reflexivity; discriminate.
  - unfold Argparse.add_argument.
    cbn [Argparse.kw_dest Argparse.kw_nargs Argparse.kw_default Argparse.kw_metavar
         Argparse.kw_type Argparse.kw_action Argparse.kw_help forallb
         Argparse.starts_with_dash negb andb option.default].
    change (Ascii.eqb "-" "-") with true. cbn [andb negb].
    unfold id. rewrite (Hnonempty _ Hne).
    rewrite (pop_action_class_flag _ (negb (truthy (a_default a)))) by reflexivity.
    destruct (truthy (a_default a)) eqn:Ht; cbn [negb];
      cbn [Argparse.make_action Argparse.kw_nargs Argparse.kw_metavar Argparse.kw_type];
      (rewrite add_action_fresh by (cbn [Argparse.option_strings existsb]; by rewrite Hc2));
      cbn [Argparse.actions]; unfold Argparse.namespace_entry, flag_polarity;
      cbn [Argparse.const Argparse.default Argparse.kw_default];
      rewrite Ht; destruct seen; try reflexivity;
      destruct (a_default a); try reflexivity; discriminate.
Qed.

(** The boolean actions do not take [metavar]: [add_argument] raises. *)
Lemma add_argument_flag_metavar parser args k (st : bool) m :
  Argparse.kw_action k = Some (if st then "store_true" else "store_false") ->
  Argparse.kw_metavar k = Some m ->
  exists e, Argparse.add_argument parser args k = Raise e.
Proof.
  intros Ha Hm.
  assert (forall strings d req, exists e,
            Argparse.make_action
              (if st then Argparse.StoreTrueAction else Argparse.StoreFalseAction)
              strings d req k = Raise e) as Hmake.
  { intros strings d req. unfold Argparse.make_action. rewrite Hm.
    destruct st, (Argparse.kw_nargs k); eauto. }
  unfold Argparse.add_argument. rewrite (pop_action_class_flag k st Ha).
  repeat lazymatch goal with
  | |- exists e, Raise _ = Raise e => eexists; reflexivity
  | |- context [Argparse.make_action _ ?s ?d ?r k] =>
      destruct (Hmake s d r) as [? ->]
  | |- context [match ?x with _ => _ end] => destruct x
  end.
Qed.

(** A stored meta goes to [add_argument] as [metavar]: registering such a
    boolean flag raises, whether or not the flag is on the command line. *)
Lemma cli_flag_value_metavar p m seen :
  py_eq (p_nargs p) (PInt 0) = true ->
  p_meta p = Some m ->
  exists e, cli_flag_value p seen = Raise e.
Proof.
  intros Hn Hm. unfold cli_flag_value, cli_argument. rewrite Hn, Hm.
  assert (py_eq (p_nargs p) (PInt 1) = false) as ->.
  { destruct (p_nargs p) as [| [] | z | |]; simpl in *; try done.
    apply Z.eqb_eq in Hn as ->. done. }
  cbn [negb].
  match goal with
  | |- context [Argparse.add_argument ?parser ?ids ?k] =>
      destruct (add_argument_flag_metavar parser ids k
                  (negb (truthy (p_default p))) m eq_refl eq_refl) as [e ->]
  end.
  eauto.
Qed.

(** C3: the polarity fails on a boolean flag whose long flag is not its
    name.  [verbose_parameter] is what the constructor builds from
    [verbose_args]; [load_cli] forwards its meta as [metavar] to a
    [store_true] action, and [add_argument] raises a [TypeError] before any
    command line is parsed, with the flag and without it.  The example of
    genui.py, whose long flag is its name, has the polarity. *)
Theorem cli_flag_value_verbose :
  Parameter_init verbose_args ∅ = ({[ "-v" ]} ∪ ∅, Ok verbose_parameter) /\
  cli_flag_value verbose_parameter true =
    Raise (Argparse.type_error "__init__() got an unexpected keyword argument 'metavar'") /\
  cli_flag_value verbose_parameter false =
    Raise (Argparse.type_error "__init__() got an unexpected keyword argument 'metavar'") /\
  snd (load_cli (MkGenericUI [verbose_parameter] None "1.0")) =
    Raise (Argparse.type_error "__init__() got an unexpected keyword argument 'metavar'") /\
  cli_flag_value option_parameter true = Ok (PBool true) /\
  cli_flag_value option_parameter false = Ok (PBool false).
Proof. repeat split; vm_compute; reflexivity. Qed.

Lemma init_meta_some meta name long :
  long <> Some name -> exists m, init_meta meta name long = Some m.
Proof.
  intros Hne. unfold init_meta. rewrite bool_decide_eq_false_2 by done. simpl.
  destruct meta as [m|]; [|eauto]. destruct (negb _); eauto.
Qed.

(** Every boolean flag whose long flag is absent or differs from its name
    is affected: the constructor stores a meta for it. *)
Lemma cli_flag_value_raises a flags flags' p seen :
  Parameter_init a flags = (flags', Ok p) ->
  py_eq (a_nargs a) (PInt 0) = true ->
  a_long a <> Some (a_name a) ->
  exists e, cli_flag_value p seen = Raise e.
Proof.
  intros E Hn Hl.
  apply Parameter_init_ok in E as (_ & _ & _ & _ & _ & Hmeta & Hnargs & _).
  destruct (init_meta_some (a_meta a) (a_name a) (a_long a) Hl) as [m Hm].
  eapply cli_flag_value_metavar; [by rewrite Hnargs|by rewrite Hmeta, Hm].
Qed.

(** ** The mode selector *)

Lemma str_in_iff x l : str_in x l = true <-> x ∈ l.
Proof.
  unfold str_in. rewrite existsb_exists. split.
  - intros (y & Hy & Heq). apply String.eqb_eq in Heq as ->. by apply list_elem_of_In.
  - intros Hin. exists x. split; [by apply list_elem_of_In|apply String.eqb_refl].
Qed.

(** [list.remove] takes out the first occurrence and nothing else. *)
Lemma list_remove_spec x l :
  x ∈ l ->
  exists before after,
    l = (before ++ x :: after)%list /\ (x ∉ before) /\
    list_remove x l = Some (before ++ after)%list.
Proof.
  induction l as [|y l IH]; intros Hin; [by apply elem_of_nil in Hin|].
  simpl. destruct (String.eqb y x) eqn:E.
  - apply String.eqb_eq in E as ->. exists [], l.
    split; [reflexivity|]. split; [apply not_elem_of_nil|reflexivity].
  - apply String.eqb_neq in E.
    apply elem_of_cons in Hin as [->|Hin]; [done|].
    destruct (IH Hin) as (before & after & -> & Hnot & ->).
    exists (y :: before), after.
    split; [reflexivity|]. split; [|reflexivity].
    intros [->|?]%elem_of_cons; done.
Qed.

Section ModeSelectorProperties.

Variable basename : string -> string.

(** When the process has a parent and a grandparent, [run] loads the
    form exactly when [--gui] is among the arguments or the script name is
    the parent's name while the grandparent is [explorer.exe], and the
    command line otherwise; [--gui], when present, is taken out of the
    arguments at its first occurrence, and the arguments are left alone
    when it is absent. *)
Theorem run_selects_surface (self : GenericUI) (argv0 : string) (args : list string)
    (exe parent_exe : string) (above : list string) :
  let argv := argv0 :: args in
  exists self' argv' chosen,
    run basename self (Launch argv (exe :: parent_exe :: above)) =
      Ok (self', argv', chosen) /\
    (chosen = GuiSurface <->
       "--gui" ∈ argv \/ (basename argv0 = exe /\ parent_exe = "explorer.exe")) /\
    (chosen = CliSurface <->
       ~ ("--gui" ∈ argv \/ (basename argv0 = exe /\ parent_exe = "explorer.exe"))) /\
    ("--gui" ∈ argv ->
       exists before after,
         argv = (before ++ "--gui" :: after)%list /\ ("--gui" ∉ before) /\
         argv' = (before ++ after)%list) /\
    ("--gui" ∉ argv -> argv' = argv) /\
    ui_parameters self' = ui_parameters self.
Proof.
  intros argv. unfold run. cbn [sys_argv ancestors].
  fold argv.
  destruct (str_in "--gui" argv) eqn:Egui.
  - apply str_in_iff in Egui.
    destruct (list_remove_spec _ _ Egui) as (before & after & Hargv & Hnot & Hrm).
    rewrite Hrm. cbn [default from_option id].
    eexists _, _, _. split; [reflexivity|].
    split; [split; auto|].
    split; [split; [discriminate|intros H; exfalso; auto]|].
    split; [intros _; eauto|].
    split; [done|reflexivity].
  - assert ("--gui" ∉ argv) as Hno.
    { intros H%str_in_iff. congruence. }
    eexists _, _, _. split; [reflexivity|].
    assert (String.eqb (basename argv0) exe && String.eqb parent_exe "explorer.exe" = true
            <-> basename argv0 = exe /\ parent_exe = "explorer.exe") as Hb.
    { rewrite andb_true_iff, !String.eqb_eq. done. }
    destruct (String.eqb (basename argv0) exe && String.eqb parent_exe "explorer.exe").
    + split; [split; [intros _; right; by apply Hb|done]|].
      split; [split; [discriminate|]|].
      { intros H. exfalso. apply H. right. by apply Hb. }
      split; [done|]. split; [done|reflexivity].
    + split; [split; [discriminate|]|].
      { intros [H|H]; [done|]. apply Hb in H. discriminate. }
      split; [split; [|done]|].
      { intros _ [H|H]; [done|]. apply Hb in H. discriminate. }
      split; [done|]. split; [done|reflexivity].
Qed.

(** [demo.exe], started by its own boot loader from the desktop shell,
    with [--gui] given as well. *)
Lemma run_selects_surface_example :
  run basename (MkGenericUI [] (Some "Demo") "1.0")
    (Launch ["demo.exe"; "in.txt"; "--gui"; "--gui"] ["demo.exe"; "explorer.exe"]) =
  Ok (MkGenericUI [] (Some "Demo") "1.0", ["demo.exe"; "in.txt"; "--gui"], GuiSurface).
Proof. reflexivity. Qed.

(** Without a grandparent process [run] raises before it looks at the
    arguments. *)
Lemma run_without_grandparent self argv exe :
  argv <> [] ->
  run basename self (Launch argv [exe]) = Raise attribute_error.
Proof. intros H. unfold run. simpl. by destruct argv. Qed.

(** C4: the override does not decide on its own.  The module documents
    that [--gui] loads the form also from a terminal, but [run] asks for
    the names of the parent and of the grandparent process before it looks
    for [--gui]: started as [tool.py --gui] by a process that has no parent
    (or with no parent at all), it raises an [AttributeError] and loads no
    surface, while the same arguments load the form as soon as a
    grandparent exists, whatever the names of the processes are. *)
Theorem run_gui_override_fails (self : GenericUI) (exe : string) :
  run basename self (Launch ["tool.py"; "--gui"] [exe]) = Raise attribute_error /\
  run basename self (Launch ["tool.py"; "--gui"] []) = Raise attribute_error /\
  forall (parent_exe : string) (above : list string),
    exists self',
      run basename self (Launch ["tool.py"; "--gui"] (exe :: parent_exe :: above)) =
        Ok (self', ["tool.py"], GuiSurface).
Proof.
  split; [reflexivity|]. split; [reflexivity|].
  intros parent_exe above. eexists. reflexivity.
Qed.

End ModeSelectorProperties.

(** ** Multi-value validation on the form *)

Lemma append_cons c s t : String c s +:+ t = String c (s +:+ t).
Proof. reflexivity. Qed.


Lemma split_comma_nonempty s : split_comma s <> [].
Proof.
  destruct s as [|c s]; [done|]. simpl.
  destruct (Ascii.eqb c ","); [done|]. by destruct (split_comma s).
Qed.

Lemma join_comma_cons piece rest :
  rest <> [] -> join_comma (piece :: rest) = piece +:+ String "," (join_comma rest).
Proof. by destruct rest. Qed.

Lemma split_comma_join s : join_comma (split_comma s) = s.
Proof.
  induction s as [|c s IH]; [done|]. cbn [split_comma].
  pose proof (split_comma_nonempty s) as Hne.
  destruct (Ascii.eqb c ",") eqn:E.
  - apply Ascii.eqb_eq in E as ->.
    rewrite join_comma_cons by done. by rewrite IH.
  - destruct (split_comma s) as [|piece rest]; [done|].
    rewrite <- IH. destruct rest; [done|].
    rewrite !join_comma_cons by done. reflexivity.
Qed.

Lemma split_comma_no_comma s :
  Forall (fun piece => has_comma piece = false) (split_comma s).
Proof.
  induction s as [|c s IH]; [by repeat constructor|]. simpl.
  destruct (Ascii.eqb c ",") eqn:E; [by constructor|].
  destruct (split_comma s) as [|piece rest].
  - repeat constructor. simpl. by rewrite E.
  - inversion IH; subst. constructor; [|done]. simpl. by rewrite E.
Qed.

(** The splitting is the only one with these two properties. *)
Lemma split_comma_append piece t :
  has_comma piece = false ->
  split_comma (piece +:+ String "," t) = piece :: split_comma t.
Proof.
  induction piece as [|c piece IH]; intros Hp; [reflexivity|].
  simpl in Hp. apply orb_false_iff in Hp as [Hc Hp].
  rewrite append_cons. cbn [split_comma]. by rewrite Hc, (IH Hp).
Qed.

Lemma split_comma_piece piece :
  has_comma piece = false -> split_comma piece = [piece].
Proof.
  induction piece as [|c piece IH]; intros Hp; [reflexivity|].
  simpl in Hp. apply orb_false_iff in Hp as [Hc Hp].
  cbn [split_comma]. by rewrite Hc, (IH Hp).
Qed.

(** The splitting is the only one with these two properties. *)
Lemma split_comma_unique l :
  l <> [] -> Forall (fun piece => has_comma piece = false) l ->
  split_comma (join_comma l) = l.
Proof.
  induction l as [|piece rest IH]; [done|]. intros _ Hall.
  inversion Hall as [|? ? Hp Hrest]; subst.
  destruct rest as [|piece' rest]; [by apply split_comma_piece|].
  rewrite join_comma_cons by done.
  rewrite split_comma_append by done. by rewrite IH.
Qed.

Lemma lstrip_spec s :
  exists pre, s = pre +:+ lstrip s /\ all_space pre = true /\
              head_space (lstrip s) = false.
Proof.
  induction s as [|c s (pre & Hs & Hpre & Hhead)].
  - by exists "".
  - simpl. destruct (isspace c) eqn:E.
    + exists (String c pre). rewrite append_cons, <- Hs. simpl. by rewrite E, Hpre.
    + exists "". simpl. by rewrite E.
Qed.

Lemma rstrip_spec s :
  exists post, s = rstrip s +:+ post /\ all_space post = true /\
               last_space (rstrip s) = false.
Proof.
  induction s as [|c s (post & Hs & Hpost & Hlast)].
  - by exists "".
  - simpl. destruct (rstrip s) as [|d r] eqn:Er.
    + destruct (isspace c) eqn:E.
      * exists (String c post). cbn in Hs. subst s. simpl. by rewrite E, Hpost.
      * exists post. cbn in Hs. subst s. simpl. by rewrite E.
    + exists post. rewrite !append_cons, <- append_cons, <- Hs. done.
Qed.

Lemma rstrip_head s : head_space s = false -> head_space (rstrip s) = false.
Proof.
  destruct s as [|c s]; [done|]. simpl. intros E.
  destruct (rstrip s); [by rewrite E|done].
Qed.

(** [strip] removes white space from both ends, and only that. *)
Lemma strip_spec s :
  exists pre post,
    s = pre +:+ strip s +:+ post /\
    all_space pre = true /\ all_space post = true /\
    head_space (strip s) = false /\ last_space (strip s) = false.
Proof.
  destruct (lstrip_spec s) as (pre & Hs & Hpre & Hhead).
  destruct (rstrip_spec (lstrip s)) as (post & Hl & Hpost & Hlast).
  exists pre, post. unfold strip. rewrite <- Hl.
  repeat split; try done. by apply rstrip_head.
Qed.

(** The loop returns the results in the order of the pieces, after what
    was accumulated; it succeeds exactly when every piece validates. *)
Lemma list_wrap_loop_ok func pieces : forall checked out,
  list_wrap_loop func pieces checked = Ok out <->
  exists vs, out = (checked ++ vs)%list /\
             Forall2 (fun piece v => c_call func (PStr piece) = Ok v) pieces vs.
Proof.
  induction pieces as [|piece rest IH]; intros checked out; simpl.
  - split.
    + intros [= <-]. exists []. by rewrite app_nil_r.
    + intros (vs & -> & Hall). inversion Hall. by rewrite app_nil_r.
  - destruct (c_call func (PStr piece)) as [v|e] eqn:E.
    + rewrite IH. split.
      * intros (vs & -> & Hall). exists (v :: vs).
        rewrite <- app_assoc. split; [done|]. by constructor.
      * intros (vs & -> & Hall). inversion Hall as [|? w ? vs' Hw Hrest]; subst.
        assert (w = v) as -> by congruence.
        exists vs'. by rewrite <- app_assoc.
    + split; [done|]. intros (vs & _ & Hall). inversion Hall; congruence.
Qed.

(** It raises what the first failing piece raises. *)
Lemma list_wrap_loop_raise func pieces : forall checked e,
  list_wrap_loop func pieces checked = Raise e <->
  exists before piece after vs,
    pieces = (before ++ piece :: after)%list /\
    Forall2 (fun piece v => c_call func (PStr piece) = Ok v) before vs /\
    c_call func (PStr piece) = Raise e.
Proof.
  induction pieces as [|piece rest IH]; intros checked e; simpl.
  - split; [done|]. intros (before & piece & after & vs & H & _).
    by destruct before.
  - destruct (c_call func (PStr piece)) as [v|e'] eqn:E.
    + rewrite IH. split.
      * intros (before & piece' & after & vs & -> & Hall & He).
        exists (piece :: before), piece', after, (v :: vs).
        split; [done|]. split; [by constructor|done].
      * intros (before & piece' & after & vs & Hp & Hall & He).
        destruct before as [|b before]; simpl in Hp; injection Hp as <- ->.
        -- congruence.
        -- inversion Hall; subst. eauto 10.
    + split.
      * intros [= <-]. exists [], piece, rest, []. by repeat constructor.
      * intros (before & piece' & after & vs & Hp & Hall & He).
        destruct before as [|b before]; simpl in Hp; injection Hp as <- ->.
        -- congruence.
        -- inversion Hall; congruence.
Qed.

(** C5: after [load_gui] has prepared the parameters, the validator of a
    parameter whose arity is none of 0, 1 and ['?'] takes the raw text
    apart at the commas, strips each piece, validates the pieces one by one
    with the scalar validator and returns the list of the results in the
    order of the pieces; it succeeds exactly when every piece validates.
    With a validator that returns its argument, ["a, b ,c"] gives
    [["a", "b", "c"]]. *)
Theorem load_gui_multi_value (self : GenericUI) (i : nat) (p : parameter) :
  ui_parameters self !! i = Some p ->
  py_in (p_nargs p) [PInt 0; PInt 1; PStr "?"] = false ->
  exists p',
    ui_parameters (load_gui_prepare self) !! i = Some p' /\
    (c_type (p_verify p) = None -> scalar_verify p = p_verify p) /\
    (forall raw out,
       c_call (p_verify p') (PStr raw) = Ok out <->
       exists vs,
         out = PList vs /\
         Forall2 (fun piece v => c_call (scalar_verify p) (PStr piece) = Ok v)
           (map strip (split_comma raw)) vs) /\
    ((forall v, c_call (scalar_verify p) v = Ok v) ->
     c_call (p_verify p') (PStr "a, b ,c") = Ok (PList [PStr "a"; PStr "b"; PStr "c"])).
Proof.
  intros Hi Hn.
  exists (set_verify p (gui_verify p)). split.
  { unfold load_gui_prepare. cbn [ui_parameters].
    by rewrite list_lookup_fmap, Hi. }
  split; [unfold scalar_verify; by intros ->|].
  assert (p_verify (set_verify p (gui_verify p)) = list_wrap (scalar_verify p)) as ->.
  { unfold set_verify, gui_verify, scalar_verify. cbn [p_verify]. by rewrite Hn. }
  split.
  - intros raw out. cbn [list_wrap c_call].
    destruct (list_wrap_loop _ _ []) as [checked|e] eqn:E.
    + apply list_wrap_loop_ok in E as (vs & -> & Hall). simpl. split.
      * intros [= <-]. eauto.
      * intros (vs' & -> & Hall'). f_equal. f_equal.
        clear -Hall Hall'. revert vs' Hall'.
        induction Hall; intros vs' Hall'; inversion Hall'; subst; [done|].
        f_equal; [congruence|eauto].
    + split; [done|]. intros (vs & -> & Hall).
      assert (list_wrap_loop (scalar_verify p) (map strip (split_comma raw)) [] = Ok vs)
        as E'; [|congruence].
      apply list_wrap_loop_ok. eauto.
  - intros Hid. cbn [list_wrap c_call].
    change (map strip (split_comma "a, b ,c")) with ["a"; "b"; "c"].
    cbn [list_wrap_loop]. rewrite !Hid. reflexivity.
Qed.

(** A parameter with arity ['+'] and the default validator. *)
Lemma load_gui_multi_value_witness :
  exists p',
    ui_parameters
      (load_gui_prepare
         (MkGenericUI
            [MkParameter "names" None None (Some "names") (PStr "+") PNone PNone
               "text" None identity_verify] None "1.0")) !! 0%nat = Some p' /\
    c_call (p_verify p') (PStr "a, b ,c") = Ok (PList [PStr "a"; PStr "b"; PStr "c"]).
Proof.
  destruct (load_gui_multi_value
              (MkGenericUI
                 [MkParameter "names" None None (Some "names") (PStr "+") PNone PNone
                    "text" None identity_verify] None "1.0")
              0%nat
              (MkParameter "names" None None (Some "names") (PStr "+") PNone PNone
                 "text" None identity_verify)
              eq_refl eq_refl) as (p' & Hp' & _ & _ & Hex).
  exists p'. split; [exact Hp'|]. apply Hex. intros v. reflexivity.
Defined.

(** ** The progress indicator *)

Lemma clamp_range percentage : 0 <= clamp percentage <= 100.
Proof. unfold clamp. lia. Qed.

Lemma fresh_progress_invariant self : fresh_progress self -> progress_invariant self.
Proof. intros [Hp [l Hw]]. exists (LogWidgets true l 0 false). by rewrite Hp. Qed.

(** One call: it never raises while the log window is there, stores the
    clamped value, and moves the bar as a latch. *)
Lemma set_progress_step self percentage :
  progress_invariant self ->
  exists self',
    set_progress self percentage = Ok self' /\
    progress_invariant self' /\
    stored_progress self' = Some (clamp percentage) /\
    bar_visible self' =
      (if bar_visible self then negb (clamp percentage =? 100)
       else 0 <? clamp percentage).
Proof.
  intros (w & Hw & Ha & Hb).
  unfold set_progress, live_widgets, bar_visible, stored_progress. rewrite Hw, Ha, <- Hb.
  fold (clamp percentage). pose proof (clamp_range percentage) as Hr.
  destruct (bar_placed w); cbn [negb andb].
  - destruct (clamp percentage =? 100) eqn:E;
      (eexists; split; [reflexivity|]; split;
       [eexists; split; [reflexivity|]; split; [done|simpl; congruence]
       |split; reflexivity]).
  - destruct (0 <? clamp percentage) eqn:E;
      (eexists; split; [reflexivity|]; split;
       [eexists; split; [reflexivity|]; split; [done|simpl; congruence]
       |split; reflexivity]).
Qed.

Lemma set_progress_all_app self l1 l2 :
  set_progress_all self (l1 ++ l2) =
  match set_progress_all self l1 with
  | Ok self' => set_progress_all self' l2
  | Raise e => Raise e
  end.
Proof.
  revert self. induction l1 as [|p l1 IH]; intros self; simpl; [done|].
  destruct (set_progress self p); [apply IH|done].
Qed.

Lemma set_progress_all_invariant percentages : forall self,
  progress_invariant self ->
  exists self', set_progress_all self percentages = Ok self' /\ progress_invariant self'.
Proof.
  induction percentages as [|p rest IH]; intros self Hinv; simpl; [eauto|].
  destruct (set_progress_step self p Hinv) as (self1 & -> & Hinv1 & _). eauto.
Qed.

(** C7, as stated, fails when the reported value returns to 0 while the bar
    is shown: after [set_progress(50)] and [set_progress(0)] the bar is
    still placed and the stored value is 0. *)
Lemma visible_only_between_counterexample :
  exists self,
    set_progress_all fresh_gui [50; 0] = Ok self /\ ~ visible_only_between self.
Proof.
  eexists. split; [reflexivity|].
  intros H. destruct (H eq_refl) as (v & [= <-] & Hv). lia.
Qed.

(** A first report of 100 shows the bar as well. *)
Lemma set_progress_first_100 :
  exists self,
    set_progress_all fresh_gui [100] = Ok self /\
    bar_visible self = true /\ stored_progress self = Some 100.
Proof. eexists. by repeat split. Qed.

(** C7, amended: on a log window that was opened while the flag
    [processing] was off, every sequence of calls goes through; the value
    stored is the last reported one clamped into [0..100]; the bar is
    shown whenever that value is strictly between 0 and 100; it is not
    shown as long as no reported value exceeds 0; and a report that
    reaches 100 while the bar is shown hides it. *)
Theorem set_progress_all_visibility (self : GenericGUI) (before : list Z) (last : Z) :
  fresh_progress self ->
  exists self1 self2,
    set_progress_all self before = Ok self1 /\
    set_progress_all self (before ++ [last]) = Ok self2 /\
    stored_progress self2 = Some (clamp last) /\
    0 <= clamp last <= 100 /\
    (0 < clamp last < 100 -> bar_visible self2 = true) /\
    (Forall (fun p => p <= 0) (before ++ [last]) -> bar_visible self2 = false) /\
    (bar_visible self1 = true -> 100 <= last -> bar_visible self2 = false).
Proof.
  intros Hfresh. pose proof (fresh_progress_invariant _ Hfresh) as Hinv.
  destruct (set_progress_all_invariant before self Hinv) as (self1 & E1 & Hinv1).
  destruct (set_progress_step self1 last Hinv1) as (self2 & E2 & Hinv2 & Hst & Hvis).
  exists self1, self2. split; [done|].
  split; [rewrite set_progress_all_app, E1; simpl; by rewrite E2|].
  split; [done|]. split; [apply clamp_range|].
  split; [|split].
  - intros Hr. rewrite Hvis. destruct (bar_visible self1).
    + apply negb_true_iff, Z.eqb_neq. lia.
    + apply Z.ltb_lt. lia.
  - intros Hall. apply Forall_app in Hall as [Hb Hl].
    inversion Hl as [|? ? Hlast _]; subst.
    assert (bar_visible self1 = false) as Hv1.
    { clear -Hb E1 Hfresh. revert self Hfresh E1.
      induction before as [|p rest IH]; intros self Hfresh E1; simpl in E1.
      - injection E1 as <-. destruct Hfresh as [_ [l Hw]].
        unfold bar_visible. by rewrite Hw.
      - inversion Hb as [|? ? Hp Hrest]; subst.
        destruct Hfresh as [Hproc [l Hw]].
        unfold set_progress, live_widgets in E1. rewrite Hw, Hproc in E1.
        cbn [negb andb alive] in E1.
        replace (Z.max 0 (Z.min p 100)) with 0 in E1 by lia.
        change (0 <? 0) with false in E1. cbn iota in E1.
        eapply (IH Hrest); [|exact E1].
        split; [done|]. by exists l. }
    rewrite Hvis, Hv1. apply Z.ltb_ge. unfold clamp. lia.
  - intros Hv1 Hlast. rewrite Hvis, Hv1. apply negb_false_iff, Z.eqb_eq.
    unfold clamp. lia.
Qed.

Lemma set_progress_all_visibility_witness :
  exists self1 self2,
    set_progress_all fresh_gui [20; 60] = Ok self1 /\
    set_progress_all fresh_gui ([20; 60] ++ [100]) = Ok self2 /\
    stored_progress self2 = Some (clamp 100) /\
    0 <= clamp 100 <= 100 /\
    (0 < clamp 100 < 100 -> bar_visible self2 = true) /\
    (Forall (fun p => p <= 0) ([20; 60] ++ [100]) -> bar_visible self2 = false) /\
    (bar_visible self1 = true -> 100 <= 100 -> bar_visible self2 = false).
Proof.
  apply (set_progress_all_visibility fresh_gui [20; 60] 100).
  split; [reflexivity|]. exists []. reflexivity.
Defined.

(** ** Log ingestion *)

Lemma str_in_terminators msg :
  str_in msg [LF; CR] = false <-> msg <> LF /\ msg <> CR.
Proof.
  split.
  - intros H. split; intros ->; discriminate H.
  - intros [H1 H2]. destruct (str_in msg [LF; CR]) eqn:E; [exfalso|done].
    apply str_in_iff in E. apply elem_of_cons in E as [->|E]; [done|].
    apply elem_of_cons in E as [->|E]; [done|]. by apply elem_of_nil in E.
Qed.

Lemma live_list_with_log self l buffer cr :
  live_list self = Some l ->
  forall l', live_list (with_log self (set_log_list (widgets self) l') buffer cr) = Some l'.
Proof.
  unfold live_list. destruct (widgets self) as [w|]; [|done].
  destruct (alive w) eqn:E; [|done]. intros _ l'. simpl. by rewrite E.
Qed.

(** A line feed or a carriage return commits the buffer to a live list
    box: as a new last entry, or in place of the last entry when a carriage
    return is pending. *)
Lemma log_commit self msg l :
  msg = LF \/ msg = CR ->
  live_list self = Some l ->
  live_list (log self msg) =
    Some ((if carriage_return self then removelast l else l) ++ [msg_buffer self])%list /\
  msg_buffer (log self msg) = "" /\
  carriage_return (log self msg) = String.eqb msg CR.
Proof.
  intros Hmsg Hl. unfold log.
  assert (str_in msg [LF; CR] = true) as -> by (destruct Hmsg as [-> | ->]; reflexivity).
  cbn [negb]. rewrite Hl. split; [|done].
  by apply live_list_with_log with (l := l).
Qed.



(** ** Form submission *)

Lemma confirm_field_completed p e completed :
  confirm_field p e completed =
  (fst (fst (confirm_field p e true)), snd (fst (confirm_field p e true)),
   completed && snd (confirm_field p e true)).
Proof.
  unfold confirm_field.
  destruct (String.eqb (p_widget p) "box"); [by rewrite andb_true_r|].
  destruct (c_call _ _); [|by rewrite andb_false_r].
  destruct (dict_get _ _); [|by rewrite andb_false_r].
  destruct (negb _); by rewrite andb_true_r.
Qed.

Lemma confirm_field_box p e :
  p_widget p = "box" ->
  confirm_field p e true = (set_value p (PBool (e_var e)), e, true).
Proof. intros H. unfold confirm_field. by rewrite H. Qed.



(** The loop, field by field, when there is an entry for every
    parameter. *)
Lemma confirm_loop_spec params : forall es completed,
  length params = length es ->
  exists ps' es' completed',
    confirm_loop params es completed = (ps', es', Ok completed') /\
    length ps' = length params /\ length es' = length es /\
    (forall i p e, params !! i = Some p -> es !! i = Some e ->
       ps' !! i = Some (fst (fst (confirm_field p e true))) /\
       es' !! i = Some (snd (fst (confirm_field p e true)))) /\
    (completed' = true <->
     completed = true /\
     Forall2 (fun p e => snd (confirm_field p e true) = true) params es).
Proof.
  induction params as [|p params IH]; intros es completed Hlen.
  - destruct es; [|done]. exists [], [], completed. simpl.
    split; [done|]. split; [done|]. split; [done|]. split; [done|].
    split; [intros ->; by split|by intros [-> _]].
  - destruct es as [|e es]; [done|]. injection Hlen as Hlen.
    cbn [confirm_loop]. rewrite confirm_field_completed.
    destruct (IH es (completed && snd (confirm_field p e true)) Hlen)
      as (ps' & es' & c' & -> & Hl1 & Hl2 & Hfields & Hc).
    eexists _, _, _. split; [reflexivity|].
    split; [simpl; by rewrite Hl1|]. split; [simpl; by rewrite Hl2|].
    split.
    + intros [|i] q f Hq Hf; simpl in *.
      * by injection Hq as <-; injection Hf as <-.
      * by apply Hfields.
    + rewrite Hc, andb_true_iff. split.
      * intros [[? ?] ?]. split; [done|]. by constructor.
      * intros [? Hall]. inversion Hall; subst. done.
Qed.

(** Writing to the log touches the log attributes only. *)
Lemma log_frame self msg :
  parameters (log self msg) = parameters self /\
  mode (log self msg) = mode self /\
  entries (log self msg) = entries self /\
  event (log self msg) = event self /\
  inputs_disabled (log self msg) = inputs_disabled self /\
  should_quit (log self msg) = should_quit self.
Proof.
  unfold log. destruct (negb _); [done|].
  destruct (live_list self); [done|]. by destruct (carriage_return self).
Qed.

Lemma log_all_frame msgs : forall self,
  parameters (log_all self msgs) = parameters self /\
  mode (log_all self msgs) = mode self /\
  entries (log_all self msgs) = entries self /\
  event (log_all self msgs) = event self /\
  inputs_disabled (log_all self msgs) = inputs_disabled self /\
  should_quit (log_all self msgs) = should_quit self.
Proof.
  induction msgs as [|msg msgs IH]; intros self; [done|].
  unfold log_all in *. cbn [fold_left].
  destruct (IH (log self msg)) as (-> & -> & -> & -> & -> & ->). apply log_frame.
Qed.





(** ** What the front ends change in a parameter *)











(** * Further properties *)

(** ** The constructor: when it succeeds and what it leaves *)

Lemma flags_of_flag_list p f : f ∈ flags_of p <-> f ∈ flag_list p.
Proof.
  unfold flags_of, flag_list.
  destruct (p_short p), (p_long p); simpl; set_solver.
Qed.

(** The constructor succeeds exactly when the short flag string is not
    registered, the long flag string is neither registered nor the short
    flag string itself, and the validator takes one parameter.  It then
    registers exactly the parameter's flags, starts [value] at [default],
    and forces the check box for arity 0 only. *)
Theorem Parameter_init_succeeds (a : init_args) (flags : gset string) :
  let fresh :=
    (forall f, short_of a = Some f -> f ∉ flags) /\
    (forall f, long_of a = Some f -> (f ∉ flags) /\ short_of a <> Some f) /\
    c_params (a_verify a) = 1%nat in
  (fresh <-> exists flags' p, Parameter_init a flags = (flags', Ok p)) /\
  (forall flags' p,
     Parameter_init a flags = (flags', Ok p) ->
     flags' = flags ∪ flags_of p /\
     p_short p = short_of a /\ p_long p = long_of a /\
     p_value p = a_default a /\ p_default p = a_default a /\
     p_widget p = (if py_eq (a_nargs a) (PInt 0) then "box" else a_widget a)).
Proof.
  intros fresh. subst fresh.
  unfold Parameter_init, ctor_bind, ctor_ret, ctor_raise.
  fold (short_of a) (long_of a).
  split; [split|].
  - intros (Hs & Hl & Hv).
    destruct (short_of a) as [s|] eqn:Es.
    + rewrite register_flag_fresh by auto.
      destruct (long_of a) as [l|] eqn:El.
      * destruct (Hl l eq_refl) as [Hl1 Hl2].
        rewrite register_flag_fresh by (set_solver).
        rewrite Hv. simpl. eauto.
      * simpl. rewrite Hv. simpl. eauto.
    + simpl. destruct (long_of a) as [l|] eqn:El.
      * destruct (Hl l eq_refl) as [Hl1 Hl2].
        rewrite register_flag_fresh by done. rewrite Hv. simpl. eauto.
      * simpl. rewrite Hv. simpl. eauto.
  - intros (flags' & p & E).
    destruct (register_flag (short_of a) _ flags) as [f1 [[]|e1]] eqn:E1; [|discriminate].
    destruct (register_flag (long_of a) _ f1) as [f2 [[]|e2]] eqn:E2; [|discriminate].
    destruct (Nat.eqb _ 1) eqn:E3; [|discriminate].
    apply Nat.eqb_eq in E3. apply register_flag_ok in E1, E2.
    split; [|split; [|done]].
    + intros f Hf. rewrite Hf in E1. tauto.
    + intros f Hf. rewrite Hf in E2. destruct E2 as [Hnot _].
      destruct (short_of a) as [s|]; [|split; [set_solver|done]].
      destruct E1 as [_ ->]. split; [set_solver|]. intros [= ->]. set_solver.
  - intros flags' p.
    destruct (register_flag (short_of a) _ flags) as [f1 [[]|e1]] eqn:E1; [|discriminate].
    destruct (register_flag (long_of a) _ f1) as [f2 [[]|e2]] eqn:E2; [|discriminate].
    destruct (Nat.eqb _ 1) eqn:E3; [|discriminate].
    intros [= <- <-]. cbn [p_short p_long p_value p_default p_widget].
    apply register_flag_ok in E1, E2.
    split; [|repeat split; by destruct (py_eq (a_nargs a) (PInt 0))].
    unfold flags_of. cbn [p_short p_long].
    destruct (short_of a), (long_of a); destruct_and?; subst; set_solver.
Qed.

(** What a successful construction did to the registry. *)
Lemma Parameter_init_fresh a flags flags' p :
  Parameter_init a flags = (flags', Ok p) ->
  flags' = flags ∪ flags_of p /\
  (forall f, f ∈ flag_list p -> f ∉ flags) /\
  NoDup (flag_list p).
Proof.
  unfold Parameter_init, ctor_bind, ctor_ret, ctor_raise.
  fold (short_of a) (long_of a).
  destruct (register_flag (short_of a) _ flags) as [f1 [[]|e1]] eqn:E1; [|discriminate].
  destruct (register_flag (long_of a) _ f1) as [f2 [[]|e2]] eqn:E2; [|discriminate].
  destruct (Nat.eqb _ 1) eqn:E3; [|discriminate].
  intros [= <- <-]. apply register_flag_ok in E1, E2.
  unfold flags_of, flag_list. cbn [p_short p_long].
  destruct (short_of a) as [s|], (long_of a) as [lg|]; destruct_and?; subst; simpl.
  - split; [set_solver|]. split; [set_solver|].
    repeat constructor; set_solver.
  - split; [set_solver|]. split; [set_solver|]. repeat constructor; set_solver.
  - split; [set_solver|]. split; [set_solver|]. repeat constructor; set_solver.
  - split; [set_solver|]. split; [set_solver|]. constructor.
Qed.

Lemma construct_all_length l : forall flags flags' ps,
  construct_all l flags = (flags', Ok ps) -> length ps = length l.
Proof.
  induction l as [|a l IH]; simpl; intros flags flags' ps.
  - by intros [= <- <-].
  - unfold ctor_bind, ctor_ret.
    destruct (Parameter_init a flags) as [f1 [p1|e1]] eqn:E1; [|discriminate].
    destruct (construct_all l f1) as [f2 [ps2|e2]] eqn:E2; [|discriminate].
    intros [= <- <-]. simpl. f_equal. eauto.
Qed.

(** The invariant of the registry: after a script has constructed its
    parameters, no flag string belongs to two of them (nor twice to one),
    none was registered before, and the registry holds the old flags and
    the flags of the new parameters, nothing else. *)
Theorem construct_all_unique (l : list init_args) (flags flags' : gset string)
    (ps : list parameter) :
  construct_all l flags = (flags', Ok ps) ->
  length ps = length l /\
  NoDup (flat_map flag_list ps) /\
  (forall f, f ∈ flat_map flag_list ps -> f ∉ flags) /\
  flags' = flags ∪ list_to_set (flat_map flag_list ps).
Proof.
  intros E. split; [by eapply construct_all_length|].
  revert flags flags' ps E.
  induction l as [|a l IH]; simpl; intros flags flags' ps.
  - intros [= <- <-]. simpl. split; [constructor|]. split; [|set_solver].
    intros f Hf. by apply elem_of_nil in Hf.
  - unfold ctor_bind, ctor_ret.
    destruct (Parameter_init a flags) as [f1 [p1|e1]] eqn:E1; [|discriminate].
    destruct (construct_all l f1) as [f2 [ps2|e2]] eqn:E2; [|discriminate].
    intros [= <- <-].
    destruct (IH _ _ _ E2) as (Hnd & Hfresh & Hreg).
    destruct (Parameter_init_fresh _ _ _ _ E1) as (Hf1 & Hfresh1 & Hnd1).
    simpl. split; [|split].
    + apply NoDup_app. split; [done|]. split; [|done].
      intros f Hf Hf2. apply Hfresh in Hf2. apply Hf2. rewrite Hf1.
      apply elem_of_union_r. by apply flags_of_flag_list.
    + intros f Hf. apply elem_of_app in Hf as [Hf|Hf]; [by apply Hfresh1|].
      apply Hfresh in Hf. rewrite Hf1 in Hf. set_solver.
    + rewrite Hreg, Hf1. rewrite list_to_set_app_L.
      assert (flags_of p1 = list_to_set (flag_list p1)) as ->; [|set_solver].
      apply set_eq. intros f. rewrite flags_of_flag_list. set_solver.
Qed.

Lemma construct_all_unique_witness :
  NoDup (flat_map flag_list [option_parameter]).
Proof.
  refine (proj1 (proj2 (construct_all_unique [option_args] ∅
                          ({[ "--option" ]} ∪ ({[ "-o" ]} ∪ ∅)) [option_parameter] _))).
  vm_compute. reflexivity.
Defined.

(** ** The command line: validators and reserved flags *)

Lemma py_eq_0_not_1 v : py_eq v (PInt 0) = true -> py_eq v (PInt 1) = false.
Proof.
  destruct v as [| [] | z | |]; simpl; try done.
  intros H. apply Z.eqb_eq in H as ->. done.
Qed.

(** What [load_cli] hands to [argparse] as [type]: nothing for a boolean
    flag, whose validator is therefore never called on the command line;
    a bare type as it is; and for a function a wrapper that returns what
    the function returns and turns every exception into an
    [ArgumentTypeError] with the same text. *)
Theorem cli_argument_type (p : parameter) :
  (py_eq (p_nargs p) (PInt 0) = true ->
     Argparse.kw_type (snd (cli_argument p)) = None) /\
  (py_eq (p_nargs p) (PInt 0) = false ->
     exists t,
       Argparse.kw_type (snd (cli_argument p)) = Some t /\
       (c_type (p_verify p) <> None -> t = p_verify p) /\
       (c_type (p_verify p) = None ->
          forall token,
            match c_call (p_verify p) token with
            | Ok v => c_call t token = Ok v
            | Raise e => c_call t token = Raise (ArgumentTypeError (exn_message e))
            end)).
Proof.
  unfold cli_argument. split.
  - intros H0. rewrite H0, (py_eq_0_not_1 _ H0). reflexivity.
  - intros H0. rewrite H0.
    assert ((if negb (py_eq (p_nargs p) (PInt 1)) then @None string else None) = None)
      as -> by (by destruct (negb _)).
    cbn [snd Argparse.kw_type]. unfold is_type_object.
    destruct (c_type (p_verify p)) as [name|] eqn:Et; cbn [negb].
    + exists (p_verify p). split; [done|]. split; [done|]. by intros.
    + exists (error_wrap (p_verify p)). split; [done|]. split; [done|].
      intros _ token. cbn [error_wrap c_call]. by destruct (c_call (p_verify p) token).
Qed.

Lemma cli_argument_type_witness :
  exists t,
    Argparse.kw_type (snd (cli_argument names_parameter)) = Some t /\
    c_call t (PStr "a") = Ok (PStr "a").
Proof.
  destruct (proj2 (cli_argument_type names_parameter) eq_refl) as (t & Ht & _ & Hf).
  exists t. split; [exact Ht|]. exact (Hf eq_refl (PStr "a")).
Defined.

Lemma make_action_option_strings c strings d req k act :
  Argparse.make_action c strings d req k = Ok act -> Argparse.option_strings act = strings.
Proof.
  unfold Argparse.make_action.
  destruct c.
  - destruct (Argparse.kw_nargs k) as [n|]; [destruct (py_eq n (PInt 0))|];
      intros [= <-]; done.
  - destruct (Argparse.kw_nargs k), (Argparse.kw_metavar k), (Argparse.kw_type k);
      intros [= <-]; done.
  - destruct (Argparse.kw_nargs k), (Argparse.kw_metavar k), (Argparse.kw_type k);
      intros [= <-]; done.
Qed.

(** An option string that the parser already knows makes [add_argument]
    raise. *)
Lemma add_argument_conflict parser args k s :
  forallb Argparse.starts_with_dash args = true ->
  s ∈ args -> s ∈ Argparse.taken parser ->
  exists e, Argparse.add_argument parser args k = Raise e.
Proof.
  intros Hdash Hin Htaken. unfold Argparse.add_argument.
  destruct args as [|first others]; [by apply elem_of_nil in Hin|].
  pose proof Hdash as Hdash'. cbn [forallb] in Hdash'.
  apply andb_true_iff in Hdash' as [Hfirst _].
  destruct first as [|c0 first]; [done|].
  rewrite Hfirst. cbn [negb].
  assert (match others with [] => false | _ :: _ => false end = false) as ->
    by (by destruct others).
  rewrite Hdash. cbn [negb].
  destruct (String.eqb _ _); [eauto|].
  destruct (Argparse.pop_action_class k) as [c|e]; [|eauto].
  destruct (Argparse.make_action c _ _ false k) as [act|e] eqn:Ea; [|eauto].
  apply make_action_option_strings in Ea.
  unfold Argparse.add_action. rewrite Ea.
  assert (existsb (fun s0 => str_in s0 (Argparse.taken parser))
            (String c0 first :: others) = true) as ->; [|eauto].
  apply existsb_exists. exists s. split; [by apply list_elem_of_In|].
  by apply str_in_iff.
Qed.

Lemma add_argument_reserved parser args k parser' :
  Argparse.add_argument parser args k = Ok parser' ->
  Argparse.reserved parser' = Argparse.reserved parser.
Proof.
  assert (forall act p', Argparse.add_action parser act = Ok p' ->
            Argparse.reserved p' = Argparse.reserved parser) as Hadd.
  { intros act p'. unfold Argparse.add_action. destruct (existsb _ _); [done|].
    by intros [= <-]. }
  unfold Argparse.add_argument.
  repeat lazymatch goal with
  | |- Raise _ = Ok _ -> _ => discriminate
  | |- Argparse.add_action parser ?a = Ok _ -> _ => apply Hadd
  | |- context [match ?x with _ => _ end] => destruct x
  end.
Qed.

(** The flags [-h] and [--help] belong to [argparse]: the constructor
    accepts [short='h'] or [long='help'], but [load_cli] raises on a
    parameter list that holds such a parameter, whatever the command line
    is. *)
Theorem load_cli_reserved_flag (a : init_args) (flags flags' : gset string)
    (p : parameter) (ui : GenericUI) :
  Parameter_init a flags = (flags', Ok p) ->
  a_short a = Some "h" \/ a_long a = Some "help" ->
  p ∈ ui_parameters ui ->
  exists e, snd (load_cli ui) = Raise e.
Proof.
  intros E Hflag Hin. unfold load_cli. cbn [snd].
  apply Parameter_init_ok in E as (Hs & Hl & _).
  assert (forall parser,
            (forall s, s ∈ ["-h"; "--help"] -> s ∈ Argparse.taken parser) ->
            exists e, Argparse.add_argument parser (fst (cli_argument p))
                        (snd (cli_argument p)) = Raise e) as Hp.
  { intros parser Hres.
    assert (exists s, s ∈ ["-h"; "--help"] /\ s ∈ flag_list p) as (s & Hs1 & Hs2).
    { unfold flag_list. rewrite Hs, Hl. unfold short_of, long_of.
      destruct Hflag as [-> | ->]; cbn [fmap option_fmap option_map].
      - exists "-h". split; [set_solver|]. apply elem_of_app. left.
        apply list_elem_of_here.
      - exists "--help". split; [set_solver|]. apply elem_of_app. right.
        apply list_elem_of_here. }
    assert (fst (cli_argument p) = flag_list p /\
            forallb Argparse.starts_with_dash (flag_list p) = true) as [Hids Hdash].
    { unfold cli_argument, flag_list. rewrite Hs, Hl. unfold short_of, long_of.
      destruct (a_short a), (a_long a); simpl in *; try done.
      exfalso. by destruct Hflag. }
    apply add_argument_conflict with (s := s); rewrite ?Hids; auto. }
  assert (forall ps parser,
            p ∈ ps ->
            Argparse.reserved parser = ["-h"; "--help"] ->
            exists e, add_arguments parser ps = Raise e) as Hall.
  { induction ps as [|q ps IH]; intros parser Hq Hres; [by apply elem_of_nil in Hq|].
    cbn [add_arguments].
    destruct (cli_argument q) as [ids k] eqn:Eq.
    destruct (Argparse.add_argument parser ids k) as [parser'|e] eqn:Eadd; [|eauto].
    apply elem_of_cons in Hq as [<-|Hq].
    - destruct (Hp parser) as [e He].
      + intros s Hs'. unfold Argparse.taken. rewrite Hres. apply elem_of_app. by left.
      + rewrite Eq in He. cbn [fst snd] in He. congruence.
    - apply IH; [done|]. apply add_argument_reserved in Eadd. congruence. }
  by apply Hall.
Qed.

Lemma load_cli_reserved_flag_witness :
  exists e,
    snd (load_cli
           (MkGenericUI
              [MkParameter "host" (Some "-h") None (Some "host") (PInt 1) PNone PNone
                 "text" None identity_verify] None "1.0")) = Raise e.
Proof.
  apply (load_cli_reserved_flag
           (InitArgs "host" (Some "h") None None (PInt 1) PNone identity_verify None "text")
           ∅ ({[ "-h" ]} ∪ ∅)
           (MkParameter "host" (Some "-h") None (Some "host") (PInt 1) PNone PNone
              "text" None identity_verify)).
  - vm_compute. reflexivity.
  - left. reflexivity.
  - apply list_elem_of_here.
Defined.

(** ** The form: wrapped validators *)

(** On the form a validator is given the text of an entry.  When the
    validator is a bare type other than [str], the type check that
    [load_gui] puts in its place rejects every text, for a single value and
    for a list of values alike; with [str] a single value is returned as
    it is. *)
Theorem gui_verify_bare_type (p : parameter) (name raw : string) :
  c_type (p_verify p) = Some name ->
  (name <> "str" ->
     exists piece, c_call (gui_verify p) (PStr raw) =
                     Raise (ValueError (NotOfType (PStr piece) name))) /\
  (name = "str" ->
     py_in (p_nargs p) [PInt 0; PInt 1; PStr "?"] = true ->
     c_call (gui_verify p) (PStr raw) = Ok (PStr raw)).
Proof.
  intros Ht. unfold gui_verify. rewrite Ht. split.
  - intros Hne.
    assert (forall piece, c_call (type_check name) (PStr piece) =
                            Raise (ValueError (NotOfType (PStr piece) name))) as Hcheck.
    { intros piece. cbn [type_check c_call type_name].
      assert (String.eqb "str" name = false) as ->; [|done].
      apply String.eqb_neq. congruence. }
    destruct (negb _).
    + cbn [list_wrap c_call].
      pose proof (split_comma_nonempty raw) as Hsplit.
      destruct (split_comma raw) as [|piece rest]; [done|].
      cbn [map list_wrap_loop]. rewrite Hcheck. eauto.
    + eauto.
  - intros -> Hn. rewrite Hn. reflexivity.
Qed.

Lemma gui_verify_bare_type_witness :
  exists piece,
    c_call (gui_verify (MkParameter "count" None None (Some "count") (PInt 1) PNone PNone
                          "text" None (Callable (Some "int") 1 (fun v => Ok v))))
      (PStr "12") = Raise (ValueError (NotOfType (PStr piece) "int")).
Proof.
  refine (proj1 (gui_verify_bare_type _ "int" "12" _) _); [reflexivity|discriminate].
Defined.

Lemma split_comma_length raw :
  length (split_comma raw) =
  S (length (filter (fun c => c = ","%char) (list_ascii_of_string raw))).
Proof.
  induction raw as [|c raw IH]; [done|]. cbn [split_comma list_ascii_of_string].
  rewrite filter_cons. destruct (Ascii.eqb c ",") eqn:E.
  - apply Ascii.eqb_eq in E as ->. rewrite decide_True by done. simpl. by rewrite IH.
  - apply Ascii.eqb_neq in E. rewrite decide_False by done.
    rewrite <- IH. by destruct (split_comma raw).
Qed.

(** The wrapped validator of a multi-value parameter: on a text it
    returns one result per piece, so one more than there are commas, and
    never an empty list; it raises exactly what the scalar validator raises
    on the first piece that it rejects, the pieces before it having
    passed; on anything but a text it raises. *)
Theorem list_wrap_outcome (func : callable) :
  (forall raw vs,
     c_call (list_wrap func) (PStr raw) = Ok (PList vs) ->
     length vs =
       S (length (filter (fun c => c = ","%char) (list_ascii_of_string raw)))) /\
  (forall raw e,
     c_call (list_wrap func) (PStr raw) = Raise e <->
     exists before piece after vs,
       map strip (split_comma raw) = (before ++ piece :: after)%list /\
       Forall2 (fun piece v => c_call func (PStr piece) = Ok v) before vs /\
       c_call func (PStr piece) = Raise e) /\
  (forall v, (forall s, v <> PStr s) -> exists e, c_call (list_wrap func) v = Raise e).
Proof.
  split; [|split].
  - intros raw vs. cbn [list_wrap c_call].
    destruct (list_wrap_loop _ _ []) as [checked|e] eqn:E; [|done].
    intros [= ->]. apply list_wrap_loop_ok in E as (vs' & -> & Hall).
    apply Forall2_length in Hall. rewrite length_map, split_comma_length in Hall.
    simpl. congruence.
  - intros raw e. cbn [list_wrap c_call].
    rewrite <- (list_wrap_loop_raise func _ [] e).
    destruct (list_wrap_loop _ _ []); split; congruence.
  - intros v Hv. destruct v; cbn [list_wrap c_call]; eauto. by destruct (Hv s).
Qed.

(** ** The form: submitting again, and what the callback gets *)

(** A field that [confirm] has gone through is left as it is by a second
    pass. *)
Lemma confirm_field_fixed p e completed :
  let '(p', e', completed') := confirm_field p e completed in
  confirm_field p' e' completed = (p', e', completed').
Proof.
  unfold confirm_field.
  destruct (String.eqb (p_widget p) "box") eqn:Eb.
  - cbn [set_value p_widget]. by rewrite Eb.
  - destruct (c_call (p_verify p) (PStr (e_text e))) as [v|exc] eqn:Ev.
    + destruct (dict_get (p_widget p) help_text) as [placeholder|] eqn:Eh.
      * destruct (negb (py_eq v placeholder)) eqn:En.
        -- cbn [set_value p_widget p_verify config_style e_text].
           rewrite Eb, Ev, Eh, En. reflexivity.
        -- by rewrite Eb, Ev, Eh, En.
      * cbn [config_style e_text]. by rewrite Eb, Ev, Eh.
    + cbn [config_style e_text]. by rewrite Eb, Ev.
Qed.

Lemma confirm_loop_fixed params : forall es completed,
  let '(ps', es', r) := confirm_loop params es completed in
  confirm_loop ps' es' completed = (ps', es', r).
Proof.
  induction params as [|p params IH]; intros es completed; cbn [confirm_loop]; [done|].
  destruct es as [|e es]; [done|].
  pose proof (confirm_field_fixed p e completed) as Hf.
  destruct (confirm_field p e completed) as [[p1 e1] c1].
  specialize (IH es c1).
  destruct (confirm_loop params es c1) as [[ps es1] r].
  cbn [confirm_loop]. by rewrite Hf, IH.
Qed.

Lemma submit_frame self b :
  parameters (submit (print_completed self b) b) = parameters self /\
  mode (submit (print_completed self b) b) = mode self /\
  entries (submit (print_completed self b) b) = entries self.
Proof.
  unfold print_completed.
  destruct (log_all_frame ["completed"; " "; if b then "True" else "False"; LF] self)
    as (H1 & H2 & H3 & _).
  unfold submit. by destruct b.
Qed.

Lemma dict_get_set_same {A} key (v : A) d : dict_get key (dict_set key v d) = Some v.
Proof.
  induction d as [|[k w] d IH]; simpl; [by rewrite String.eqb_refl|].
  destruct (String.eqb k key) eqn:E; simpl; by rewrite E.
Qed.

Lemma dict_get_set_other {A} key key' (v : A) d :
  key' <> key -> dict_get key (dict_set key' v d) = dict_get key d.
Proof.
  intros Hne. induction d as [|[k w] d IH]; simpl.
  - by apply String.eqb_neq in Hne as ->.
  - destruct (String.eqb k key') eqn:E; simpl; [|by rewrite IH].
    apply String.eqb_eq in E as ->. by apply String.eqb_neq in Hne as ->.
Qed.

(** What [confirm] leaves in the active mode and what it returns, in terms
    of the loop. *)
Lemma confirm_active self :
  let loop := confirm_loop (active_parameters self) (active_entries self) true in
  mode (fst (confirm self)) = mode self /\
  active_parameters (fst (confirm self)) = fst (fst loop) /\
  active_entries (fst (confirm self)) = snd (fst loop) /\
  (dict_get (mode self) (parameters self) <> None ->
   entries self !! mode self <> None ->
   dict_get (mode self) (parameters (fst (confirm self))) <> None /\
   entries (fst (confirm self)) !! mode self <> None /\
   snd (confirm self) = match snd loop with Ok _ => Ok tt | Raise exc => Raise exc end).
Proof.
  unfold confirm, confirm_fields, active_parameters, active_entries.
  destruct (dict_get (mode self) (parameters self)) as [params|] eqn:Hps;
    cbn [default from_option id].
  { destruct (entries self !! mode self) as [es|] eqn:Hes; cbn [default from_option id].
    - destruct (confirm_loop params es true) as [[ps' es'] r] eqn:Hloop. cbn [fst snd].
      set (s1 := with_fields self (dict_set (mode self) ps' (parameters self))
                   (<[mode self:=es']> (entries self))).
      assert (mode s1 = mode self /\ dict_get (mode self) (parameters s1) = Some ps' /\
              entries s1 !! mode self = Some es') as (M1 & P1 & E1).
      { subst s1. cbn. by rewrite dict_get_set_same, lookup_insert_eq. }
      destruct r as [c|exc]; cbn [fst snd].
      + destruct (submit_frame s1 c) as (-> & -> & ->). rewrite M1, P1, E1.
        repeat split; try done; intros _ _; by rewrite ?P1, ?E1.
      + rewrite M1, P1, E1. repeat split; try done; intros _ _; by rewrite ?P1, ?E1.
    - destruct params as [|p0 params0]; cbn [fst snd confirm_loop].
      + destruct (submit_frame self true) as (-> & -> & ->). rewrite Hps, Hes.
        repeat split; try done.
      + rewrite Hps, Hes. repeat split; try done. }
  cbn [fst snd confirm_loop]. rewrite Hps. cbn [default from_option id].
  repeat split; try done.
Qed.

(** Submitting twice without an edit in between changes nothing the
    second time: the parameters and the entries of the active mode, hence
    the arguments of the callback, are those of the first submission, and
    a complete form is accepted again with the same outcome. *)
Theorem confirm_idempotent (self : GenericGUI) :
  let once := fst (confirm self) in
  let twice := fst (confirm once) in
  active_parameters twice = active_parameters once /\
  active_entries twice = active_entries once /\
  load_gui_args (active_parameters twice) = load_gui_args (active_parameters once) /\
  (dict_get (mode self) (parameters self) <> None ->
   entries self !! mode self <> None ->
   snd (confirm once) = snd (confirm self)).
Proof.
  intros once twice. subst twice once.
  destruct (confirm_active self) as (M1 & P1 & E1 & O1).
  destruct (confirm_active (fst (confirm self))) as (M2 & P2 & E2 & O2).
  pose proof (confirm_loop_fixed (active_parameters self) (active_entries self) true) as Hfix.
  destruct (confirm_loop (active_parameters self) (active_entries self) true)
    as [[ps' es'] r] eqn:Hloop.
  cbn [fst snd] in *. rewrite P1, E1, Hfix in P2, E2, O2. cbn [fst snd] in *.
  rewrite P2, E2, P1, E1.
  repeat split; try done.
  intros Hp He. destruct (O1 Hp He) as (Hp' & He' & ->).
  rewrite M1 in O2. by destruct (O2 Hp' He') as (_ & _ & ->).
Qed.

Lemma load_gui_args_fold name ps : forall args,
  dict_get name
    (fold_left (fun args parameter => dict_set (p_name parameter) (p_value parameter) args)
       ps args) =
  match last (filter (fun p => p_name p = name) ps) with
  | Some p => Some (p_value p)
  | None => dict_get name args
  end.
Proof.
  induction ps as [|p ps IH]; intros args; [done|].
  cbn [fold_left]. rewrite IH, filter_cons.
  destruct (decide (p_name p = name)) as [<-|Hne].
  - rewrite dict_get_set_same.
    rewrite last_cons. by destruct (last _).
  - by rewrite dict_get_set_other.
Qed.

(** The callback is called with one argument per name: the value of the
    last parameter of the active mode that has this name, and no argument
    for a name that no parameter has. *)
Theorem load_gui_args_lookup (ps : list parameter) (name : string) :
  dict_get name (load_gui_args ps) =
  p_value <$> last (filter (fun p => p_name p = name) ps).
Proof.
  unfold load_gui_args. rewrite load_gui_args_fold.
  by destruct (last _).
Qed.

(** ** The form: how it is built *)

Section FormConstruction.

Variable tk_text : pyval -> string.

(** The entries of a mode, none when the mode has no key yet. *)
Lemma create_widget_spec self key param :
  create_widget tk_text self key param =
  with_entries self
    (entries_append (entries self) key (initial_entry tk_text param))
    (should_quit self || unknown_widget param).
Proof.
  unfold create_widget, initial_entry, unknown_widget.
  destruct (String.eqb_spec (p_widget param) "box") as [->|H1];
    [by rewrite orb_false_r|].
  destruct (String.eqb_spec (p_widget param) "dir") as [->|H2];
    [by rewrite orb_false_r|].
  destruct (String.eqb_spec (p_widget param) "file") as [->|H3];
    [by rewrite orb_false_r|].
  destruct (String.eqb_spec (p_widget param) "fileordir") as [->|H4];
    [by rewrite orb_false_r|].
  destruct (String.eqb_spec (p_widget param) "text") as [E5|H5].
  { rewrite E5. cbn [dict_get help_text String.eqb Ascii.eqb Bool.eqb].
    by rewrite orb_false_r. }
  destruct (String.eqb_spec (p_widget param) "pass") as [->|H6];
    [by rewrite orb_false_r|].
  assert (dict_get (p_widget param) help_text = None) as Hnone.
  { unfold help_text. cbn [dict_get].
    repeat match goal with
    | |- context [String.eqb ?k (p_widget param)] =>
        rewrite (proj2 (String.eqb_neq k (p_widget param))) by congruence
    end. done. }
  unfold placeholder_text. rewrite Hnone. by rewrite orb_true_r.
Qed.

Lemma create_widget_fold key params : forall self,
  let self' := fold_left (fun s param => create_widget tk_text s key param) params self in
  parameters self' = parameters self /\
  should_quit self' = should_quit self || existsb unknown_widget params /\
  (forall k,
     default [] (entries self' !! k) =
     (default [] (entries self !! k) ++
      (if decide (k = key) then map (initial_entry tk_text) params else []))%list).
Proof.
  induction params as [|param params IH]; intros self; cbn [fold_left].
  - split; [done|]. split; [by rewrite orb_false_r|].
    intros k. destruct (decide (k = key)); by rewrite app_nil_r.
  - destruct (IH (create_widget tk_text self key param)) as (H1 & H2 & H3).
    split; [by rewrite H1, create_widget_spec|].
    split.
    { rewrite H2, create_widget_spec. cbn [with_entries should_quit existsb].
      by rewrite orb_assoc. }
    intros k. rewrite H3. rewrite create_widget_spec. cbn [with_entries entries].
    unfold entries_append. destruct (decide (k = key)) as [->|Hne].
    + rewrite lookup_insert_eq. cbn [default from_option id map].
      by rewrite <- app_assoc.
    + rewrite lookup_insert_ne by done. by rewrite !app_nil_r.
Qed.

Lemma create_widgets_fold kvs : forall self,
  let self' :=
    fold_left
      (fun s kv => fold_left (fun s param => create_widget tk_text s (fst kv) param)
                     (snd kv) s)
      kvs self in
  parameters self' = parameters self /\
  should_quit self' = should_quit self || existsb unknown_widget (flat_map snd kvs) /\
  (forall k,
     default [] (entries self' !! k) =
     (default [] (entries self !! k) ++
      flat_map (fun kv : string * list parameter =>
                  if decide (k = fst kv) then map (initial_entry tk_text) (snd kv) else [])
        kvs)%list).
Proof.
  induction kvs as [|[key params] kvs IH]; intros self; cbn [fold_left flat_map fst snd].
  - split; [done|]. split; [by rewrite orb_false_r|]. intros k. by rewrite app_nil_r.
  - destruct (create_widget_fold key params self) as (F1 & F2 & F3).
    destruct (IH (fold_left (fun s param => create_widget tk_text s key param) params self))
      as (H1 & H2 & H3).
    split; [by rewrite H1|]. split.
    + rewrite H2, F2, existsb_app. by rewrite orb_assoc.
    + intros k. rewrite H3, F3. by rewrite <- app_assoc.
Qed.

Lemma flat_map_unique_key {A B} (f : A -> list B) (l : list (string * A)) key v :
  NoDup (map fst l) -> (key, v) ∈ l ->
  flat_map (fun kv : string * A => if decide (key = fst kv) then f (snd kv) else []) l = f v.
Proof.
  induction l as [|[k w] l IH]; intros Hnd Hin; [by apply elem_of_nil in Hin|].
  cbn [map fst] in Hnd. apply NoDup_cons in Hnd as [Hk Hnd].
  cbn [flat_map fst snd]. apply elem_of_cons in Hin as [[= -> ->]|Hin].
  - rewrite decide_True by done.
    assert (flat_map (fun kv : string * A =>
                        if decide (k = fst kv) then f (snd kv) else []) l = []) as ->;
      [|by rewrite app_nil_r].
    clear -Hk. induction l as [|[k' w'] l IH]; [done|].
    cbn [flat_map fst snd map] in *.
    rewrite decide_False by (intros ->; apply Hk; left).
    apply IH. intros H. apply Hk. by right.
  - rewrite decide_False; [by apply IH|].
    intros ->. apply Hk. apply list_elem_of_In.
    apply (in_map fst l (k, v)). by apply list_elem_of_In.
Qed.

Lemma existsb_flat_map_rev {B} (g : B -> bool) (l : list (string * list B)) :
  existsb g (flat_map snd (rev l)) = existsb g (flat_map snd l).
Proof.
  induction l as [|kv l IH]; [done|].
  cbn [rev flat_map]. rewrite flat_map_app, !existsb_app, IH. cbn [flat_map].
  rewrite app_nil_r. apply orb_comm.
Qed.

(** [init_ui] gives every mode one entry per parameter, in the order of
    the parameters and after the entries that the class attribute
    [entries] already holds for that mode, each entry in its initial
    state; it selects the first mode, asks to quit exactly when a widget
    hint is unknown, and fails without any mode. *)
Theorem init_ui_builds (self : GenericGUI) :
  (parameters self = [] ->
     init_ui tk_text self =
       Raise (OtherException "IndexError" (Text "list index out of range"))) /\
  (forall first ps others,
     parameters self = (first, ps) :: others ->
     NoDup (map fst (parameters self)) ->
     exists gui,
       init_ui tk_text self = Ok gui /\
       parameters gui = parameters self /\
       (first <> "" \/ others = [] -> mode gui = first) /\
       should_quit gui =
         should_quit self || existsb unknown_widget (flat_map snd (parameters self)) /\
       (forall key params,
          (key, params) ∈ parameters self ->
          default [] (entries gui !! key) =
          (default [] (entries self !! key) ++ map (initial_entry tk_text) params)%list)).
Proof.
  unfold init_ui, create_widgets. split; [by intros ->|].
  intros first ps others Hps Hnd.
  destruct (create_widgets_fold (rev (parameters self)) self) as (H1 & H2 & H3).
  set (self1 := fold_left _ (rev (parameters self)) self) in *.
  rewrite (existsb_flat_map_rev unknown_widget (parameters self)) in H2.
  assert (forall key params,
            (key, params) ∈ parameters self ->
            default [] (entries self1 !! key) =
            (default [] (entries self !! key) ++ map (initial_entry tk_text) params)%list)
    as Hentries.
  { intros key params Hin. rewrite H3. f_equal.
    apply (flat_map_unique_key (map (initial_entry tk_text))).
    - rewrite map_rev. apply NoDup_ListNoDup, List.NoDup_rev. by apply NoDup_ListNoDup.
    - apply list_elem_of_In. rewrite <- in_rev. by apply list_elem_of_In. }
  rewrite Hps. rewrite Hps in H1, H2, Hentries.
  destruct others as [|other others].
  - exists (with_mode self1 first). by repeat split.
  - destruct (truthy (PStr first)) eqn:Et.
    + exists (with_mode self1 first). by repeat split.
    + exists self1. repeat split; try done.
      intros [Hne|?]; [|done]. exfalso.
      simpl in Et. apply negb_false_iff, String.eqb_eq in Et. done.
Qed.

Lemma confirm_aligned_ok gui ps :
  dict_get (mode gui) (parameters gui) = Some ps ->
  length (active_entries gui) = length ps ->
  snd (confirm gui) = Ok tt.
Proof.
  unfold confirm, confirm_fields, active_entries. intros -> Hlen.
  destruct (entries gui !! mode gui) as [es|]; cbn [default from_option id] in Hlen.
  - destruct (confirm_loop_spec ps es true (eq_sym Hlen)) as (ps' & es' & c' & -> & _).
    reflexivity.
  - by destruct ps.
Qed.

(** Submitting a form that nobody touched: the submission never fails for
    want of an entry; every check box gives [False], whatever the default
    of its parameter is; and a field whose validator returns the
    placeholder text as it is keeps its parameter and its entry
    unchanged. *)
Theorem confirm_untouched_form (gui : GenericGUI) (ps : list parameter) :
  dict_get (mode gui) (parameters gui) = Some ps ->
  active_entries gui = map (initial_entry tk_text) ps ->
  snd (confirm gui) = Ok tt /\
  (forall i p,
     ps !! i = Some p -> p_widget p = "box" ->
     active_parameters (fst (confirm gui)) !! i = Some (set_value p (PBool false))) /\
  (forall i p placeholder,
     ps !! i = Some p -> p_widget p <> "text" ->
     dict_get (p_widget p) help_text = Some (PStr placeholder) ->
     c_call (p_verify p) (PStr placeholder) = Ok (PStr placeholder) ->
     active_parameters (fst (confirm gui)) !! i = Some p /\
     active_entries (fst (confirm gui)) !! i = Some (initial_entry tk_text p)).
Proof.
  intros Hps Hes.
  assert (length ps = length (active_entries gui)) as Hlen
    by (by rewrite Hes, length_map).
  split; [by apply (confirm_aligned_ok gui ps)|].
  destruct (confirm_active gui) as (_ & HP & HE & _).
  assert (active_parameters gui = ps) as Hap
    by (unfold active_parameters; by rewrite Hps).
  rewrite HP, HE, Hap.
  destruct (confirm_loop_spec ps (active_entries gui) true Hlen)
    as (ps' & es' & c' & -> & _ & _ & Hfields & _).
  cbn [fst snd]. rewrite Hes in Hfields. split.
  - intros i p Hp Hbox.
    destruct (Hfields i p (initial_entry tk_text p) Hp) as [-> _].
    { by rewrite list_lookup_fmap, Hp. }
    rewrite confirm_field_box by done. cbn [fst].
    unfold initial_entry. rewrite Hbox. reflexivity.
  - intros i p placeholder Hp Htext Hh Hv.
    destruct (Hfields i p (initial_entry tk_text p) Hp) as [-> ->].
    { by rewrite list_lookup_fmap, Hp. }
    unfold confirm_field, initial_entry, placeholder_text.
    apply String.eqb_neq in Htext. rewrite Htext, Hh.
    assert (String.eqb (p_widget p) "box" = false) as ->.
    { apply String.eqb_neq. intros Hb. rewrite Hb in Hh. discriminate Hh. }
    cbn [set_entry e_text new_entry]. rewrite Hv.
    assert (py_eq (PStr placeholder) (PStr placeholder) = true) as ->
      by apply String.eqb_refl.
    done.
Qed.

End FormConstruction.

Lemma confirm_untouched_form_witness :
  active_parameters
    (fst (confirm
            (MkGenericGUI [("1.0", [option_parameter])] "1.0"
               {[ "1.0" := [new_entry] ]} false false false None false "" false)))
    !! 0%nat = Some (set_value option_parameter (PBool false)).
Proof.
  refine (proj1 (proj2 (confirm_untouched_form (fun _ => EmptyString)
                          (MkGenericGUI [("1.0", [option_parameter])] "1.0"
                             {[ "1.0" := [new_entry] ]} false false false None false ""
                             false)
                          [option_parameter] _ _)) 0%nat option_parameter _ _);
    vm_compute; reflexivity.
Defined.

Lemma init_ui_builds_witness :
  exists gui,
    init_ui (fun _ => EmptyString)
      (MkGenericGUI [("1.0", [option_parameter])] "" ∅ false false false None false ""
         false) = Ok gui /\
    mode gui = "1.0".
Proof.
  destruct (proj2 (init_ui_builds (fun _ => EmptyString)
                     (MkGenericGUI [("1.0", [option_parameter])] "" ∅ false false false
                        None false "" false))
              "1.0" [option_parameter] [] eq_refl)
    as (gui & Hgui & _ & Hmode & _).
  - cbn [parameters map fst]. repeat constructor. apply not_elem_of_nil.
  - exists gui. split; [exact Hgui|]. apply Hmode. right. reflexivity.
Defined.

(** ** Clicks *)

(** A click empties an entry exactly when its text is one of the
    placeholder texts, of whatever widget kind; any other text survives,
    and the style, the tool tip and the state of a check box are never
    touched.  A second click changes nothing. *)
Theorem handle_click_clears (e : entry) :
  let placeholders :=
    ["Pick a directory..."; "Pick a file..."; "Pick a file or directory...";
     "Enter..."; ""] in
  (e_text e ∈ placeholders -> e_text (handle_click e) = "") /\
  (e_text e ∉ placeholders -> handle_click e = e) /\
  e_var (handle_click e) = e_var e /\
  e_style (handle_click e) = e_style e /\
  e_tip (handle_click e) = e_tip e /\
  handle_click (handle_click e) = handle_click e.
Proof.
  intros placeholders.
  assert (py_in (PStr (e_text e)) (map snd help_text) = str_in (e_text e) placeholders)
    as Hin.
  { unfold py_in, str_in, help_text, placeholders. cbn [map snd existsb py_eq].
    by rewrite !orb_false_r. }
  assert (handle_click e = if str_in (e_text e) placeholders then set_entry e "" else e)
    as Hc by (unfold handle_click; by rewrite Hin).
  destruct (str_in (e_text e) placeholders) eqn:E; rewrite !Hc.
  - split; [done|]. split; [|done].
    intros H. apply str_in_iff in E. done.
  - split; [intros H%str_in_iff; congruence|]. done.
Qed.

(** ** The log: lost output, line endings, captured processes *)




(** A line that ends with a carriage return followed by a line feed, as a
    process on Windows writes it, does not show: the carriage return
    commits the line, and the line feed replaces that entry by the empty
    buffer. *)
Theorem log_crlf_blank (self : GenericGUI) (l : list string) (line : string) :
  live_list self = Some l ->
  carriage_return self = false ->
  line <> LF -> line <> CR ->
  live_list (log_all self [line; CR; LF]) = Some (l ++ [""])%list /\
  live_list (log_all self [line; LF]) = Some (l ++ [msg_buffer self +:+ line])%list.
Proof.
  intros Hl Hcr H1 H2. unfold log_all. cbn [fold_left].
  assert (log self line =
          with_log self (widgets self) (msg_buffer self +:+ line) (carriage_return self))
    as ->.
  { unfold log. by rewrite (proj2 (str_in_terminators line) (conj H1 H2)). }
  set (s1 := with_log self _ _ _).
  assert (live_list s1 = Some l) as Hl1 by done.
  destruct (log_commit s1 CR l (or_intror eq_refl) Hl1) as (C1 & C2 & C3).
  destruct (log_commit (log s1 CR) LF _ (or_introl eq_refl) C1) as (D1 & _).
  destruct (log_commit s1 LF l (or_introl eq_refl) Hl1) as (E1 & _).
  rewrite D1, E1, C2, C3. subst s1. cbn [with_log carriage_return msg_buffer].
  rewrite Hcr. change (String.eqb CR CR) with true. cbn iota.
  by rewrite removelast_last.
Qed.

Lemma log_crlf_blank_witness :
  live_list (log_all fresh_gui ["done"; CR; LF]) = Some ([] ++ [""])%list.
Proof.
  refine (proj1 (log_crlf_blank fresh_gui [] "done" _ _ _ _));
    [reflexivity|reflexivity|discriminate|discriminate].
Defined.











(** ** The progress indicator across runs *)

(** [processing] is not reset when a new log window is opened: after a
    run whose last report was strictly between 0 and 100, the bar of the
    next log window stays hidden however far below 100 the reports of the
    next run go. *)
Theorem set_progress_stale (self run1 : GenericGUI) (before : list Z) (last : Z)
    (run2 : list Z) :
  fresh_progress self ->
  set_progress_all self (before ++ [last]) = Ok run1 ->
  0 < last < 100 ->
  Forall (fun p => p < 100) run2 ->
  exists self2,
    set_progress_all (create_log_window run1) run2 = Ok self2 /\
    bar_visible self2 = false /\ processing self2 = true.
Proof.
  intros Hfresh E1 Hlast Hrun2.
  pose proof (fresh_progress_invariant _ Hfresh) as Hinv.
  rewrite set_progress_all_app in E1.
  destruct (set_progress_all_invariant before self Hinv) as (s0 & E0 & Hinv0).
  rewrite E0 in E1. cbn [set_progress_all] in E1.
  destruct (set_progress_step s0 last Hinv0) as (s1 & Es1 & Hinv1 & _ & Hvis).
  rewrite Es1 in E1. injection E1 as <-.
  assert (bar_visible s1 = true) as Hv1.
  { rewrite Hvis. unfold clamp. destruct (bar_visible s0).
    - apply negb_true_iff, Z.eqb_neq. lia.
    - apply Z.ltb_lt. lia. }
  assert (processing s1 = true) as Hp1.
  { destruct Hinv1 as (w & Hw & _ & Hb). unfold bar_visible in Hv1.
    rewrite Hw in Hv1. congruence. }
  assert (forall ps s,
            Forall (fun p => p < 100) ps ->
            processing s = true ->
            (exists w, widgets s = Some w /\ alive w = true /\ bar_placed w = false) ->
            exists s', set_progress_all s ps = Ok s' /\
                       bar_visible s' = false /\ processing s' = true) as Hrun.
  { induction ps as [|p ps IH]; intros s Hall Hp (w & Hw & Ha & Hb).
    - exists s. split; [done|]. unfold bar_visible. by rewrite Hw.
    - inversion Hall as [|? ? Hp100 Hrest]; subst. cbn [set_progress_all].
      unfold set_progress. rewrite Hp, Hw. cbn [negb andb].
      assert ((Z.max 0 (Z.min p 100) =? 100) = false) as -> by (apply Z.eqb_neq; lia).
      apply IH; [done|done|]. eexists. split; [reflexivity|]. by split. }
  apply Hrun; [done|done|]. by eexists.
Qed.

Lemma set_progress_stale_witness :
  exists self2,
    set_progress_all
      (create_log_window
         (with_progress fresh_gui (LogWidgets true [] 50 true) true)) [30; 60] = Ok self2 /\
    bar_visible self2 = false /\ processing self2 = true.
Proof.
  apply (set_progress_stale fresh_gui _ [] 50 [30; 60]).
  - split; [reflexivity|]. exists []. reflexivity.
  - reflexivity.
  - lia.
  - repeat constructor; lia.
Defined.

(** ** What reporting never touches *)

Lemma set_progress_frame self p self' :
  set_progress self p = Ok self' ->
  parameters self' = parameters self /\ mode self' = mode self /\
  entries self' = entries self /\ event self' = event self /\
  inputs_disabled self' = inputs_disabled self /\
  should_quit self' = should_quit self /\
  msg_buffer self' = msg_buffer self /\
  carriage_return self' = carriage_return self /\
  log_list <$> widgets self' = log_list <$> widgets self.
Proof.
  unfold set_progress, live_widgets.
  destruct (widgets self) as [w|] eqn:Hw.
  - destruct (negb (processing self) && _);
      [|destruct (processing self && _)];
      try destruct (alive w); intros [= <-]; by rewrite ?Hw.
  - destruct (negb (processing self) && _);
      [|destruct (processing self && _)]; discriminate.
Qed.

Lemma log_progress_frame self msg :
  processing (log self msg) = processing self /\
  progress <$> widgets (log self msg) = progress <$> widgets self /\
  bar_placed <$> widgets (log self msg) = bar_placed <$> widgets self.
Proof.
  unfold log. destruct (negb _); [done|].
  unfold live_list. destruct (widgets self) as [w|]; [|by destruct (carriage_return self)].
  destruct (alive w); [done|]. by destruct (carriage_return self).
Qed.

(** Output and progress never reach the form: whatever is written to the
    log and whatever progress is reported, the parameters with their
    values, the entries, the mode, the event of the caller and the state
    of the inputs stay as they are; the log leaves the progress bar alone
    and the progress bar leaves the log alone. *)
Theorem reporting_frame (self : GenericGUI) (msgs : list string) (percentages : list Z) :
  (let self' := log_all self msgs in
   parameters self' = parameters self /\ mode self' = mode self /\
   entries self' = entries self /\ event self' = event self /\
   inputs_disabled self' = inputs_disabled self /\
   should_quit self' = should_quit self /\
   processing self' = processing self /\
   progress <$> widgets self' = progress <$> widgets self /\
   bar_placed <$> widgets self' = bar_placed <$> widgets self) /\
  (forall self',
     set_progress_all self percentages = Ok self' ->
     parameters self' = parameters self /\ mode self' = mode self /\
     entries self' = entries self /\ event self' = event self /\
     inputs_disabled self' = inputs_disabled self /\
     should_quit self' = should_quit self /\
     msg_buffer self' = msg_buffer self /\
     carriage_return self' = carriage_return self /\
     log_list <$> widgets self' = log_list <$> widgets self).
Proof.
  split.
  - cbn zeta. destruct (log_all_frame msgs self) as (-> & -> & -> & -> & -> & ->).
    repeat split; try done; revert self;
      (induction msgs as [|msg msgs IH]; intros self; [done|]);
      unfold log_all in *; cbn [fold_left]; rewrite IH;
      by destruct (log_progress_frame self msg) as (? & ? & ?).
  - revert self. induction percentages as [|p ps IH]; intros self self';
      cbn [set_progress_all].
    + by intros [= <-].
    + destruct (set_progress self p) as [s1|e] eqn:E1; [|discriminate].
      intros E. apply IH in E. apply set_progress_frame in E1.
      destruct E as (-> & -> & -> & -> & -> & -> & -> & -> & ->). done.
Qed.

(** ** The mode selector: what it needs *)

Lemma list_remove_length x l :
  (length (default l (list_remove x l)) <= length l)%nat.
Proof.
  destruct (list_remove x l) as [l'|] eqn:E; cbn [default from_option id]; [|done].
  revert l' E. induction l as [|y l IH]; intros l'; simpl; [done|].
  destruct (String.eqb y x); [intros [= <-]; lia|].
  destruct (list_remove x l) as [l0|]; [|done].
  intros [= <-]. specialize (IH l0 eq_refl). simpl. lia.
Qed.

Section ModeSelectorErrors.

Variable basename : string -> string.

(** [run] needs its own script name and two processes above it: with an
    empty [sys.argv] it raises an [IndexError], and with fewer than two
    ancestors an [AttributeError], also when [--gui] is given; when it goes
    through, the title is the one given to the constructor, or the script
    name when none was given, and the parameters and the version are
    untouched. *)
Theorem run_requirements (self : GenericUI) (env : launch) :
  (sys_argv env = [] ->
     run basename self env =
       Raise (OtherException "IndexError" (Text "list index out of range"))) /\
  (sys_argv env <> [] -> (length (ancestors env) < 2)%nat ->
     run basename self env = Raise attribute_error) /\
  (forall self' argv' chosen,
     run basename self env = Ok (self', argv', chosen) ->
     exists argv0 rest,
       sys_argv env = argv0 :: rest /\
       ui_title self' = Some (default (basename argv0) (ui_title self)) /\
       ui_parameters self' = ui_parameters self /\
       ui_version self' = ui_version self /\
       (length argv' <= length (sys_argv env))%nat).
Proof.
  unfold run. split; [by intros ->|]. split.
  - intros Hargv Hlen. destruct (sys_argv env) as [|argv0 rest]; [done|].
    destruct (ancestors env) as [|exe [|parent above]]; simpl in Hlen; [done|done|lia].
  - intros self' argv' chosen.
    destruct (sys_argv env) as [|argv0 rest] eqn:Hargv; [done|].
    destruct (ancestors env) as [|exe [|parent above]]; [done|done|].
    destruct (str_in "--gui" (argv0 :: rest)) eqn:Egui.
    + intros [= <- <- <-]. exists argv0, rest. cbn [ui_title ui_parameters ui_version].
      split; [done|]. split; [by destruct (ui_title self)|]. split; [done|]. split; [done|].
      apply (list_remove_length "--gui" (argv0 :: rest)).
    + intros [= <- <- <-]. exists argv0, rest. cbn [ui_title ui_parameters ui_version].
      split; [done|]. split; [by destruct (ui_title self)|]. by repeat split.
Qed.

End ModeSelectorErrors.

Lemma run_requirements_witness :
  run (fun path => path) (MkGenericUI [] None "1.0")
    (Launch ["tool.py"; "--gui"] ["python"]) = Raise attribute_error.
Proof.
  refine (proj1 (proj2 (run_requirements (fun path => path) (MkGenericUI [] None "1.0")
                          (Launch ["tool.py"; "--gui"] ["python"]))) _ _).
  - discriminate.
  - simpl. lia.
Defined.
